(** * Qiskit Chemistry, programmatic approach: the notebook's own logic

    A shallow embedding of [tutorials/chemistry/1_programmatic_approach.ipynb].
    The notebook sequences calls into Qiskit Aqua / Qiskit Chemistry; its own
    code is the index bookkeeping for the freeze and remove lists and the
    guards around the library calls.  Python integers are [Z], Python lists
    are [list], Python floats are binary64 floats, exceptions are values of
    type [exn] carried on the left of a sum, and the library is an interface
    ([Qiskit]) whose operations may raise. *)

From Stdlib Require Import ZArith List String Bool Lia Sorted.
From Corelib Require Import SpecFloat.
Import ListNotations.

Local Open Scope Z_scope.

(** ** Python values and exceptions *)

(** An exception object: its class name and its message. *)
Record exn : Type := mk_exn { exn_class : string; exn_msg : string }.

Definition ZeroDivisionError : exn :=
  mk_exn "ZeroDivisionError" "integer division or modulo by zero".

(** The outcome of evaluating a Python expression: a value, or a raised
    exception. *)
Definition result (A : Type) : Type := (exn + A)%type.

Definition Ok {A : Type} (a : A) : result A := inr a.
Definition Raise {A : Type} (e : exn) : result A := inl e.

(** Python floats: IEEE 754 binary64 values with the arithmetic of the
    standard (round to nearest even). *)
Definition float : Type := spec_float.
Definition float_add : float -> float -> float := SFadd 53 1024.
Definition float_sub : float -> float -> float := SFsub 53 1024.

(** The float nearest to [m * 2 ^ e]. *)
Definition dyadic (m e : Z) : float := binary_normalize 53 1024 m e false.

(** [0.0] *)
Definition float_zero : float := S754_zero false.

(** [len(l)] *)
Definition len {A : Type} (l : list A) : Z := Z.of_nat (List.length l).

(** [x % n] on Python ints: floored remainder, whose sign follows the
    divisor; a zero divisor raises. *)
Definition py_mod (x n : Z) : result Z :=
  if n =? 0 then Raise ZeroDivisionError else Ok (x mod n).

(** [[f(x) for x in l]] where evaluating [f(x)] may raise: elements are
    evaluated left to right and the first exception aborts the
    comprehension. *)
Fixpoint comprehension {A B : Type} (f : A -> result B) (l : list A)
  : result (list B) :=
  match l with
  | [] => Ok []
  | x :: l' =>
      match f x with
      | inl e => Raise e
      | inr y =>
          match comprehension f l' with
          | inl e => Raise e
          | inr ys => Ok (y :: ys)
          end
      end
  end.

(** ** Index normalization (first five statements of the reduction cell)

<<
remove_list = [x % molecule.num_orbitals for x in remove_list]
freeze_list = [x % molecule.num_orbitals for x in freeze_list]
remove_list = [x - len(freeze_list) for x in remove_list]
remove_list += [x + molecule.num_orbitals - len(freeze_list)  for x in remove_list]
freeze_list += [x + molecule.num_orbitals for x in freeze_list]
>>
    The function returns the final [(freeze_list, remove_list)]. *)
Definition normalize_index_lists (num_orbitals : Z)
  (freeze_list remove_list : list Z) : result (list Z * list Z) :=
  match comprehension (fun x => py_mod x num_orbitals) remove_list with
  | inl e => Raise e
  | inr remove_list1 =>
      match comprehension (fun x => py_mod x num_orbitals) freeze_list with
      | inl e => Raise e
      | inr freeze_list1 =>
          let remove_list2 :=
            map (fun x => x - len freeze_list1) remove_list1 in
          let remove_list3 :=
            remove_list2 ++
            map (fun x => x + num_orbitals - len freeze_list1) remove_list2 in
          let freeze_list2 :=
            freeze_list1 ++ map (fun x => x + num_orbitals) freeze_list1 in
          Ok (freeze_list2, remove_list3)
      end
  end.

(** The closed form of the two final lists when [num_orbitals] is not
    zero: both spin sectors, alpha first. *)
Definition mirrored_freeze (n : Z) (fl : list Z) : list Z :=
  map (fun x => x mod n) fl ++ map (fun x => x mod n + n) fl.

Definition mirrored_remove (n : Z) (fl rl : list Z) : list Z :=
  map (fun x => x mod n - len fl) rl ++
  map (fun x => (x mod n - len fl) + n - len fl) rl.

(** Raw indices as the configuration cell may give them: end-relative when
    negative. *)
Definition raw_in_range (n : Z) (l : list Z) : Prop :=
  Forall (fun x => - n <= x < n) l.

(** Every index of [l] names a mode of an operator over [modes] modes. *)
Definition valid_modes (modes : Z) (l : list Z) : Prop :=
  Forall (fun i => 0 <= i < modes) l.

(** Both final lists are valid for the operator they are applied to: the
    freeze list for the original operator over [2 * n] modes, the remove
    list for the operator left by freezing. *)
Definition normalized_lists_valid (n : Z) (fl rl : list Z) : Prop :=
  exists F R,
    normalize_index_lists n fl rl = Ok (F, R) /\
    valid_modes (2 * n) F /\
    valid_modes (2 * n - 2 * len fl) R.

(** ** The delegated libraries

    Everything below the notebook is external: the PySCF driver, the
    fermionic operator and its reductions, the qubit mapping, the exact
    eigensolver and VQE.  The interface lists the object types the notebook
    handles and one operation per call the notebook makes.  Every operation
    may raise. *)

Inductive UnitsType : Type := ANGSTROM | BOHR.

Record Qiskit : Type := {
  (* object types *)
  Tensor : Type;                 (* numpy arrays of integrals *)
  Driver : Type;                 (* PySCFDriver *)
  FerOp : Type;                  (* FermionicOperator *)
  QubitOp : Type;                (* WeightedPauliOperator *)
  ExactSolver : Type;            (* NumPyMinimumEigensolver *)
  EigResult : Type;              (* MinimumEigensolverResult *)
  Array : Type;                  (* numpy array of optimal parameters *)
  Backend : Type;
  Optimizer : Type;
  InitialState : Type;
  VarForm : Type;
  VQEAlgo : Type;
  QInstance : Type;
  (* attributes of a result object *)
  eigenvalue_real : EigResult -> float;        (* [.eigenvalue.real] *)
  optimal_point : EigResult -> Array;          (* [.optimal_point] *)
  (* QMolecule attributes read by the notebook *)
  Molecule : Type;
  one_body_integrals : Molecule -> Tensor;
  two_body_integrals : Molecule -> Tensor;
  nuclear_repulsion_energy : Molecule -> float;
  hf_energy : Molecule -> float;
  num_alpha : Molecule -> Z;
  num_beta : Molecule -> Z;
  num_orbitals : Molecule -> Z;
  (* operations *)
  PySCFDriver : string -> UnitsType -> Z -> Z -> string -> result Driver;
  driver_run : Driver -> result Molecule;
  FermionicOperator : Tensor -> Tensor -> result FerOp;
  fermion_mode_freezing : FerOp -> list Z -> result (FerOp * float);
  fermion_mode_elimination : FerOp -> list Z -> result FerOp;
  mapping : FerOp -> string -> float -> result QubitOp;
  two_qubit_reduction : QubitOp -> Z -> result QubitOp;
  chop : QubitOp -> float -> result QubitOp;   (* in place: the new content *)
  print_details : QubitOp -> result string;
  NumPyMinimumEigensolver : QubitOp -> result ExactSolver;
  exact_run : ExactSolver -> result EigResult;
  get_backend : string -> result Backend;
  COBYLA : Z -> result Optimizer;
  HartreeFock : Z -> Z -> string -> bool -> result InitialState;
  UCCSD : Z -> Z -> list Z -> list Z -> InitialState -> string -> bool -> Z
          -> result VarForm;
  VQE : QubitOp -> VarForm -> Optimizer -> result VQEAlgo;
  QuantumInstance : Backend -> result QInstance;
  vqe_run : VQEAlgo -> QInstance -> result EigResult
}.

(** The hard-coded choices of the configuration cell. *)
Record Config : Type := {
  cfg_freeze_list : list Z;
  cfg_remove_list : list Z;
  cfg_map_type : string
}.

(** [freeze_list = [0]], [remove_list = [-3, -2]], [map_type = 'parity'] *)
Definition notebook_config : Config :=
  {| cfg_freeze_list := [0];
     cfg_remove_list := [-3; -2];
     cfg_map_type := "parity" |}.

Section Notebook.

Context (L : Qiskit).

(** *** What a run does: library calls and printed lines, in order *)

Inductive LibCall : Type :=
| call_PySCFDriver (atom : string) (unit : UnitsType) (charge spin : Z)
    (basis : string)
| call_driver_run (d : Driver L)
| call_FermionicOperator (h1 h2 : Tensor L)
| call_fermion_mode_freezing (op : FerOp L) (fermion_mode_array : list Z)
| call_fermion_mode_elimination (op : FerOp L) (fermion_mode_array : list Z)
| call_mapping (op : FerOp L) (map_type : string) (threshold : float)
| call_two_qubit_reduction (q : QubitOp L) (num_particles : Z)
| call_chop (q : QubitOp L) (threshold : float)
| call_print_details (q : QubitOp L)
| call_NumPyMinimumEigensolver (q : QubitOp L)
| call_exact_run (s : ExactSolver L)
| call_get_backend (name : string)
| call_COBYLA (maxiter : Z)
| call_HartreeFock (num_orbitals num_particles : Z) (qubit_mapping : string)
    (two_qubit_reduction : bool)
| call_UCCSD (num_orbitals num_particles : Z)
    (active_occupied active_unoccupied : list Z)
    (initial_state : InitialState L) (qubit_mapping : string)
    (two_qubit_reduction : bool) (num_time_slices : Z)
| call_VQE (q : QubitOp L) (var_form : VarForm L) (optimizer : Optimizer L)
| call_QuantumInstance (backend : Backend L)
| call_vqe_run (vqe : VQEAlgo L) (qi : QInstance L).

Inductive PyVal : Type :=
| VInt (z : Z)
| VFloat (f : float)
| VStr (s : string)
| VQubitOp (q : QubitOp L)
| VArray (a : Array L).

Inductive Event : Type :=
| Called (c : LibCall) (raised : option exn)
| Printed (fmt : string) (arg : PyVal).

Definition Trace : Type := list Event.

(** *** The execution monad: a trace that grows, and an exception that
    aborts.  There is no handler: the notebook has no [try]. *)
Definition M (A : Type) : Type := Trace -> Trace * result A.

Definition ret {A : Type} (a : A) : M A := fun t => (t, Ok a).

Definition bind {A B : Type} (m : M A) (f : A -> M B) : M B :=
  fun t =>
    match m t with
    | (t', inl e) => (t', Raise e)
    | (t', inr a) => f a t'
    end.

(** A pure computation that may raise. *)
Definition lift {A : Type} (r : result A) : M A := fun t => (t, r).

Definition raised_by {A : Type} (r : result A) : option exn :=
  match r with
  | inl e => Some e
  | inr _ => None
  end.

(** A library call: recorded with its outcome, which is also the outcome
    of the expression. *)
Definition lib {A : Type} (c : LibCall) (r : result A) : M A :=
  fun t => (t ++ [Called c (raised_by r)], r).

(** [print(fmt.format(arg))] *)
Definition print (fmt : string) (arg : PyVal) : M unit :=
  fun t => (t ++ [Printed fmt arg], Ok tt).

Local Notation "x <- m ;; k" := (bind m (fun x => k))
  (at level 61, m at next level, right associativity).
Local Notation "m ;;; k" := (bind m (fun _ => k))
  (at level 61, right associativity).

(** *** The library operations as the notebook invokes them *)

Definition do_PySCFDriver atom unit charge spin basis : M (Driver L) :=
  lib (call_PySCFDriver atom unit charge spin basis)
      (PySCFDriver L atom unit charge spin basis).
Definition do_driver_run d : M (Molecule L) :=
  lib (call_driver_run d) (driver_run L d).
Definition do_FermionicOperator h1 h2 : M (FerOp L) :=
  lib (call_FermionicOperator h1 h2) (FermionicOperator L h1 h2).
Definition do_fermion_mode_freezing op l : M (FerOp L * float) :=
  lib (call_fermion_mode_freezing op l) (fermion_mode_freezing L op l).
Definition do_fermion_mode_elimination op l : M (FerOp L) :=
  lib (call_fermion_mode_elimination op l) (fermion_mode_elimination L op l).
Definition do_mapping op map_type threshold : M (QubitOp L) :=
  lib (call_mapping op map_type threshold) (mapping L op map_type threshold).
Definition do_two_qubit_reduction q n : M (QubitOp L) :=
  lib (call_two_qubit_reduction q n) (two_qubit_reduction L q n).
Definition do_chop q threshold : M (QubitOp L) :=
  lib (call_chop q threshold) (chop L q threshold).
Definition do_print_details q : M string :=
  lib (call_print_details q) (print_details L q).
Definition do_NumPyMinimumEigensolver q : M (ExactSolver L) :=
  lib (call_NumPyMinimumEigensolver q) (NumPyMinimumEigensolver L q).
Definition do_exact_run s : M (EigResult L) :=
  lib (call_exact_run s) (exact_run L s).
Definition do_get_backend name : M (Backend L) :=
  lib (call_get_backend name) (get_backend L name).
Definition do_COBYLA maxiter : M (Optimizer L) :=
  lib (call_COBYLA maxiter) (COBYLA L maxiter).
Definition do_HartreeFock n p m r : M (InitialState L) :=
  lib (call_HartreeFock n p m r) (HartreeFock L n p m r).
Definition do_UCCSD n p occ unocc st m r slices : M (VarForm L) :=
  lib (call_UCCSD n p occ unocc st m r slices)
      (UCCSD L n p occ unocc st m r slices).
Definition do_VQE q vf opt : M (VQEAlgo L) :=
  lib (call_VQE q vf opt) (VQE L q vf opt).
Definition do_QuantumInstance b : M (QInstance L) :=
  lib (call_QuantumInstance b) (QuantumInstance L b).
Definition do_vqe_run v qi : M (EigResult L) :=
  lib (call_vqe_run v qi) (vqe_run L v qi).

(** *** Step 1: define a molecule

<<
driver = PySCFDriver(atom='Li .0 .0 .0; H .0 .0 1.6', unit=UnitsType.ANGSTROM,
                     charge=0, spin=0, basis='sto3g')
molecule = driver.run()
>> *)
Definition cell_molecule : M (Molecule L) :=
  driver <- do_PySCFDriver "Li .0 .0 .0; H .0 .0 1.6" ANGSTROM 0 0 "sto3g" ;;
  do_driver_run driver.

(** *** Step 2, first cell: the variables the reduction works on *)
Record Setup : Type := {
  raw_freeze_list : list Z;
  raw_remove_list : list Z;
  map_type : string;
  h1 : Tensor L;
  h2 : Tensor L;
  nuclear_repulsion : float;      (* [nuclear_repulsion_energy] *)
  num_particles0 : Z;             (* [num_particles] before the reduction *)
  num_spin_orbitals0 : Z          (* [num_spin_orbitals] before it *)
}.

Definition cell_setup (cfg : Config) (molecule : Molecule L) : M Setup :=
  let num_particles := num_alpha L molecule + num_beta L molecule in
  let num_spin_orbitals := num_orbitals L molecule * 2 in
  print "HF energy: {}"
    (VFloat (float_sub (hf_energy L molecule)
               (nuclear_repulsion_energy L molecule)))
  ;;;
  print "# of electrons: {}" (VInt num_particles) ;;;
  print "# of spin orbitals: {}" (VInt num_spin_orbitals) ;;;
  ret {| raw_freeze_list := cfg_freeze_list cfg;
         raw_remove_list := cfg_remove_list cfg;
         map_type := cfg_map_type cfg;
         h1 := one_body_integrals L molecule;
         h2 := two_body_integrals L molecule;
         nuclear_repulsion := nuclear_repulsion_energy L molecule;
         num_particles0 := num_particles;
         num_spin_orbitals0 := num_spin_orbitals |}.

(** *** Step 2, second cell: the Hamiltonian reduction pipeline *)

(** The variables the freezing and elimination stages update. *)
Record Reduction : Type := {
  ferOp : FerOp L;
  energy_shift : float;
  num_spin_orbitals : Z;
  num_particles : Z
}.

(**
<<
if len(freeze_list) > 0:
    ferOp, energy_shift = ferOp.fermion_mode_freezing(freeze_list)
    num_spin_orbitals -= len(freeze_list)
    num_particles -= len(freeze_list)
>> *)
Definition freezing_stage (freeze_list : list Z) (s : Reduction)
  : M Reduction :=
  if len freeze_list >? 0 then
    r <- do_fermion_mode_freezing (ferOp s) freeze_list ;;
    ret {| ferOp := fst r;
           energy_shift := snd r;
           num_spin_orbitals := num_spin_orbitals s - len freeze_list;
           num_particles := num_particles s - len freeze_list |}
  else ret s.

(**
<<
if len(remove_list) > 0:
    ferOp = ferOp.fermion_mode_elimination(remove_list)
    num_spin_orbitals -= len(remove_list)
>> *)
Definition elimination_stage (remove_list : list Z) (s : Reduction)
  : M Reduction :=
  if len remove_list >? 0 then
    op <- do_fermion_mode_elimination (ferOp s) remove_list ;;
    ret {| ferOp := op;
           energy_shift := energy_shift s;
           num_spin_orbitals := num_spin_orbitals s - len remove_list;
           num_particles := num_particles s |}
  else ret s.

(**
<<
qubitOp = ferOp.mapping(map_type=map_type, threshold=0.00000001)
qubitOp = Z2Symmetries.two_qubit_reduction(qubitOp, num_particles) if qubit_reduction else qubitOp
qubitOp.chop(10**-10)
>> *)
(** [0.00000001], that is 0x1.5798ee2308c3ap-27, and [10**-10], that is
    0x1.b7cdfd9d7bdbbp-34. *)
Definition mapping_threshold : float := dyadic 0x15798ee2308c3a (-79).
Definition chop_threshold : float := dyadic 0x1b7cdfd9d7bdbb (-86).

Definition mapping_stage (map_type : string) (qubit_reduction : bool)
  (s : Reduction) : M (QubitOp L) :=
  qubitOp <- do_mapping (ferOp s) map_type mapping_threshold ;;
  qubitOp <- (if qubit_reduction
              then do_two_qubit_reduction qubitOp (num_particles s)
              else ret qubitOp) ;;
  do_chop qubitOp chop_threshold.

(** [qubit_reduction = True if map_type == 'parity' else False] *)
Definition qubit_reduction_of (map_type : string) : bool :=
  if String.eqb map_type "parity" then true else false.

(** The variables the cell leaves behind. *)
Record Hamiltonian : Type := {
  freeze_list : list Z;
  remove_list : list Z;
  qubit_reduction : bool;
  reduced : Reduction;
  qubitOp : QubitOp L
}.

Definition cell_hamiltonian (molecule : Molecule L) (v : Setup)
  : M Hamiltonian :=
  lists <- lift (normalize_index_lists (num_orbitals L molecule)
                   (raw_freeze_list v) (raw_remove_list v)) ;;
  let freeze_list := fst lists in
  let remove_list := snd lists in
  let energy_shift := float_zero in
  let qubit_reduction := qubit_reduction_of (map_type v) in
  ferOp <- do_FermionicOperator (h1 v) (h2 v) ;;
  s1 <- freezing_stage freeze_list
          {| ferOp := ferOp;
             energy_shift := energy_shift;
             num_spin_orbitals := num_spin_orbitals0 v;
             num_particles := num_particles0 v |} ;;
  s2 <- elimination_stage remove_list s1 ;;
  qubitOp <- mapping_stage (map_type v) qubit_reduction s2 ;;
  details <- do_print_details qubitOp ;;
  print "{}" (VStr details) ;;;
  print "{}" (VQubitOp qubitOp) ;;;
  ret {| freeze_list := freeze_list;
         remove_list := remove_list;
         qubit_reduction := qubit_reduction;
         reduced := s2;
         qubitOp := qubitOp |}.

(** *** The exact reference

<<
exact_eigensolver = NumPyMinimumEigensolver(qubitOp)
ret = exact_eigensolver.run()
print('The computed energy is: {:.12f}'.format(ret.eigenvalue.real))
print('The total ground state energy is: {:.12f}'.format(ret.eigenvalue.real + energy_shift + nuclear_repulsion_energy))
>> *)
Definition total_energy (r : EigResult L) (energy_shift nuclear : float)
  : float :=
  float_add (float_add (eigenvalue_real L r) energy_shift) nuclear.

Definition cell_exact (v : Setup) (h : Hamiltonian) : M (EigResult L) :=
  exact_eigensolver <- do_NumPyMinimumEigensolver (qubitOp h) ;;
  r <- do_exact_run exact_eigensolver ;;
  print "The computed energy is: {:.12f}" (VFloat (eigenvalue_real L r)) ;;;
  print "The total ground state energy is: {:.12f}"
    (VFloat (total_energy r (energy_shift (reduced h)) (nuclear_repulsion v)))
  ;;;
  ret r.

(** *** Steps 3 and 4: configure and run VQE *)

(** [backend = Aer.get_backend('statevector_simulator')] *)
Definition cell_backend : M (Backend L) :=
  do_get_backend "statevector_simulator".

(**
<<
max_eval = 200
cobyla = COBYLA(maxiter=max_eval)
HF_state = HartreeFock(num_spin_orbitals, num_particles, map_type,
                       qubit_reduction)
var_form = UCCSD(num_orbitals=num_spin_orbitals, num_particles=num_particles,
                 active_occupied=[0], active_unoccupied=[0, 1],
                 initial_state=HF_state, qubit_mapping=map_type,
                 two_qubit_reduction=qubit_reduction, num_time_slices=1)
vqe = VQE(qubitOp, var_form, cobyla)
quantum_instance = QuantumInstance(backend=backend)
>> *)
Definition cell_vqe_setup (v : Setup) (h : Hamiltonian) (backend : Backend L)
  : M (VQEAlgo L * QInstance L) :=
  let max_eval := 200 in
  cobyla <- do_COBYLA max_eval ;;
  HF_state <- do_HartreeFock (num_spin_orbitals (reduced h))
                (num_particles (reduced h)) (map_type v)
                (qubit_reduction h) ;;
  var_form <- do_UCCSD (num_spin_orbitals (reduced h))
                (num_particles (reduced h)) [0] [0; 1] HF_state (map_type v)
                (qubit_reduction h) 1 ;;
  vqe <- do_VQE (qubitOp h) var_form cobyla ;;
  quantum_instance <- do_QuantumInstance backend ;;
  ret (vqe, quantum_instance).

(**
<<
results = vqe.run(quantum_instance)
print('The computed ground state energy is: {:.12f}'.format(results.eigenvalue.real))
print('The total ground state energy is: {:.12f}'.format(results.eigenvalue.real + energy_shift + nuclear_repulsion_energy))
print("Parameters: {}".format(results.optimal_point))
>> *)
Definition cell_vqe_run (v : Setup) (h : Hamiltonian)
  (vqe : VQEAlgo L) (quantum_instance : QInstance L) : M (EigResult L) :=
  results <- do_vqe_run vqe quantum_instance ;;
  print "The computed ground state energy is: {:.12f}"
    (VFloat (eigenvalue_real L results)) ;;;
  print "The total ground state energy is: {:.12f}"
    (VFloat (total_energy results (energy_shift (reduced h))
               (nuclear_repulsion v))) ;;;
  print "Parameters: {}" (VArray (optimal_point L results)) ;;;
  ret results.

(** *** The whole notebook, cells in order *)
Record Outcome : Type := {
  out_setup : Setup;
  out_hamiltonian : Hamiltonian;
  out_exact : EigResult L;
  out_vqe : EigResult L
}.

Definition notebook (cfg : Config) : M Outcome :=
  molecule <- cell_molecule ;;
  v <- cell_setup cfg molecule ;;
  h <- cell_hamiltonian molecule v ;;
  exact <- cell_exact v h ;;
  backend <- cell_backend ;;
  vq <- cell_vqe_setup v h backend ;;
  results <- cell_vqe_run v h (fst vq) (snd vq) ;;
  ret {| out_setup := v;
         out_hamiltonian := h;
         out_exact := exact;
         out_vqe := results |}.

(** *** Reading a trace *)

(** The exception an event raised, if it is a library call that raised. *)
Definition raised_in (ev : Event) : option exn :=
  match ev with
  | Called _ r => r
  | Printed _ _ => None
  end.

(** No library call of the trace raised. *)
Definition clean (t : Trace) : Prop :=
  Forall (fun ev => raised_in ev = None) t.

(** A run stops at the first library call that raises, with that very
    exception: the trace is clean up to its last event, and when the last
    event raised, the run raised the same exception. *)
Definition fail_fast {A : Type} (run : Trace * result A) : Prop :=
  match run with
  | (t, inr _) => clean t
  | (t, inl e) =>
      clean t \/ exists pre c, t = pre ++ [Called c (Some e)] /\ clean pre
  end.

Definition is_freezing_call (ev : Event) : bool :=
  match ev with
  | Called (call_fermion_mode_freezing _ _) _ => true
  | _ => false
  end.

Definition is_elimination_call (ev : Event) : bool :=
  match ev with
  | Called (call_fermion_mode_elimination _ _) _ => true
  | _ => false
  end.

Definition is_two_qubit_reduction_call (ev : Event) : bool :=
  match ev with
  | Called (call_two_qubit_reduction _ _) _ => true
  | _ => false
  end.

(** *** How computations extend the trace *)

(** [adds P m]: a run of [m] only appends events, all satisfying [P]. *)
Definition adds {A : Type} (P : Event -> Prop) (m : M A) : Prop :=
  forall t, exists rest, fst (m t) = t ++ rest /\ Forall P rest.

(** [propagates m]: from a clean trace, [m] is fail-fast. *)
Definition propagates {A : Type} (m : M A) : Prop :=
  forall t, clean t -> fail_fast (m t).

End Notebook.

Arguments call_PySCFDriver {L}.
Arguments call_driver_run {L}.
Arguments call_FermionicOperator {L}.
Arguments call_fermion_mode_freezing {L}.
Arguments call_fermion_mode_elimination {L}.
Arguments call_mapping {L}.
Arguments call_two_qubit_reduction {L}.
Arguments call_chop {L}.
Arguments call_print_details {L}.
Arguments call_NumPyMinimumEigensolver {L}.
Arguments call_exact_run {L}.
Arguments call_get_backend {L}.
Arguments call_COBYLA {L}.
Arguments call_HartreeFock {L}.
Arguments call_UCCSD {L}.
Arguments call_VQE {L}.
Arguments call_QuantumInstance {L}.
Arguments call_vqe_run {L}.
Arguments VInt {L}.
Arguments VFloat {L}.
Arguments VStr {L}.
Arguments VQubitOp {L}.
Arguments VArray {L}.
Arguments Called {L} c raised.
Arguments clean {L} t.
Arguments raised_in {L} ev.
Arguments fail_fast {L A} run.
Arguments adds {L A} P m.
Arguments propagates {L A} m.
Arguments is_freezing_call {L} ev.
Arguments is_elimination_call {L} ev.
Arguments is_two_qubit_reduction_call {L} ev.
Arguments ret {L A} a t.
Arguments bind {L A B} m f t.
Arguments lift {L A} r t.
Arguments lib {L A} c r t.
Arguments print {L} fmt arg t.
Arguments Printed {L} fmt arg.
Arguments ferOp {L} r.
Arguments energy_shift {L} r.
Arguments num_spin_orbitals {L} r.
Arguments num_particles {L} r.
Arguments raw_freeze_list {L} s.
Arguments raw_remove_list {L} s.
Arguments map_type {L} s.
Arguments h1 {L} s.
Arguments h2 {L} s.
Arguments nuclear_repulsion {L} s.
Arguments num_particles0 {L} s.
Arguments num_spin_orbitals0 {L} s.
Arguments freeze_list {L} h.
Arguments remove_list {L} h.
Arguments qubit_reduction {L} h.
Arguments reduced {L} h.
Arguments qubitOp {L} h.

(** ** A stand-in library

    Operators are represented by their number of modes (or qubits) and
    every call succeeds, except that mode elimination raises [broken] when
    one is given.  The molecule has the sizes of LiH in the sto3g basis;
    the energies are small dyadic numbers.
    It serves to run the model on concrete inputs. *)
Definition counting_library (broken : option exn) : Qiskit :=
  {| Tensor := Z; Driver := unit; FerOp := Z; QubitOp := Z;
     ExactSolver := Z; EigResult := float; Array := list float;
     Backend := string; Optimizer := Z; InitialState := unit;
     VarForm := unit; VQEAlgo := Z; QInstance := unit;
     eigenvalue_real := fun r => r;
     optimal_point := fun _ => [];
     Molecule := unit;
     one_body_integrals := fun _ => 12;
     two_body_integrals := fun _ => 12;
     nuclear_repulsion_energy := fun _ => (dyadic 1 0);
     hf_energy := fun _ => (dyadic (-7) 0);
     num_alpha := fun _ => 2;
     num_beta := fun _ => 2;
     num_orbitals := fun _ => 6;
     PySCFDriver := fun _ _ _ _ _ => Ok tt;
     driver_run := fun _ => Ok tt;
     FermionicOperator := fun h1 _ => Ok h1;
     fermion_mode_freezing := fun op l => Ok (op - len l, (dyadic (-15) (-1)));
     fermion_mode_elimination := fun op l =>
       match broken with
       | Some e => Raise e
       | None => Ok (op - len l)
       end;
     mapping := fun op _ _ => Ok op;
     two_qubit_reduction := fun q _ => Ok (q - 2);
     chop := fun q _ => Ok q;
     print_details := fun _ => Ok EmptyString;
     NumPyMinimumEigensolver := fun q => Ok q;
     exact_run := fun _ => Ok (dyadic (-1) 0);
     get_backend := fun name => Ok name;
     COBYLA := fun maxiter => Ok maxiter;
     HartreeFock := fun _ _ _ _ => Ok tt;
     UCCSD := fun _ _ _ _ _ _ _ _ => Ok tt;
     VQE := fun q _ _ => Ok q;
     QuantumInstance := fun _ => Ok tt;
     vqe_run := fun _ _ => Ok (dyadic (-1) 0) |}.

Definition KeyError : exn := mk_exn "KeyError" "mode".

(** The variables of a run of the notebook on the stand-in library. *)
Definition lih_setup : Setup (counting_library None) :=
  Build_Setup (counting_library None)
    [0] [-3; -2] "parity" 12 12 (dyadic 1 0) 4 12.

(** [ferOp], [energy_shift], [num_spin_orbitals], [num_particles] before
    the stages, after freezing and after elimination. *)
Definition lih_initial : Reduction (counting_library None) :=
  Build_Reduction (counting_library None) 12 float_zero 12 4.

Definition lih_frozen : Reduction (counting_library None) :=
  Build_Reduction (counting_library None) 10 (dyadic (-15) (-1)) 10 2.

Definition lih_reduced : Reduction (counting_library None) :=
  Build_Reduction (counting_library None) 6 (dyadic (-15) (-1)) 6 2.

Definition lih_hamiltonian : Hamiltonian (counting_library None) :=
  Build_Hamiltonian (counting_library None)
    [0; 6] [2; 3; 7; 8] true lih_reduced 4.

Definition lih_outcome : Outcome (counting_library None) :=
  Build_Outcome (counting_library None)
    lih_setup lih_hamiltonian (dyadic (-1) 0) (dyadic (-1) 0).

(** The same run with nothing to freeze or remove and the Jordan-Wigner
    mapping. *)
Definition bare_setup : Setup (counting_library None) :=
  Build_Setup (counting_library None)
    [] [] "jordan_wigner" 12 12 (dyadic 1 0) 4 12.

Definition bare_hamiltonian : Hamiltonian (counting_library None) :=
  Build_Hamiltonian (counting_library None) [] [] false lih_initial 12.

(** The notebook's variables with orbital 5 frozen and orbital 1 removed,
    and with orbital 1 frozen and orbital 0 removed. *)
Definition setup_freeze5_remove1 : Setup (counting_library None) :=
  Build_Setup (counting_library None)
    [5] [1] "parity" 12 12 (dyadic 1 0) 4 12.

Definition setup_freeze1_remove0 : Setup (counting_library None) :=
  Build_Setup (counting_library None)
    [1] [0] "parity" 12 12 (dyadic 1 0) 4 12.

(** ** Further notions used to describe runs and index lists *)

(** How many entries of [l] are below [a]. *)
Definition count_below (l : list Z) (a : Z) : Z :=
  len (filter (fun f => f <? a) l).

(** Modelled from the spec: the post-freeze orbital numbering (the "idx
    after frozen" of the source's comment), which is kept by the library's
    operator and not by the notebook.  When the modes listed in [removed]
    are taken out of the modes 0, 1, 2, ..., the modes that remain keep
    their order and are numbered from 0: mode [i] comes after as many
    modes less as there are distinct removed modes in [[0, i)]. *)
Definition position_after_removal (removed : list Z) (i : Z) : Z :=
  i - len (filter (fun f => (0 <=? f) && (f <? i))
                  (nodup Z.eq_dec removed)).

(** The position of a library call in the text of the notebook. *)
Definition call_site {L : Qiskit} (c : LibCall L) : nat :=
  match c with
  | call_PySCFDriver _ _ _ _ _ => 0
  | call_driver_run _ => 1
  | call_FermionicOperator _ _ => 2
  | call_fermion_mode_freezing _ _ => 3
  | call_fermion_mode_elimination _ _ => 4
  | call_mapping _ _ _ => 5
  | call_two_qubit_reduction _ _ => 6
  | call_chop _ _ => 7
  | call_print_details _ => 8
  | call_NumPyMinimumEigensolver _ => 9
  | call_exact_run _ => 10
  | call_get_backend _ => 11
  | call_COBYLA _ => 12
  | call_HartreeFock _ _ _ _ => 13
  | call_UCCSD _ _ _ _ _ _ _ _ => 14
  | call_VQE _ _ _ => 15
  | call_QuantumInstance _ => 16
  | call_vqe_run _ _ => 17
  end%nat.

(** The positions of the library calls of a trace, in the order made. *)
Definition sites {L : Qiskit} (t : Trace L) : list nat :=
  flat_map (fun ev => match ev with
                      | Called c _ => [call_site c]
                      | Printed _ _ => []
                      end) t.

(** The format strings of the [print] calls of a trace, in order (one
    call may write several lines). *)
Definition formats {L : Qiskit} (t : Trace L) : list string :=
  flat_map (fun ev => match ev with
                      | Called _ _ => []
                      | Printed fmt _ => [fmt]
                      end) t.

(** [ordered lo hi m]: [m] only appends events; the library calls among
    them are made in increasing order of position, all within
    [[lo, hi)]. *)
Definition ordered {L : Qiskit} {A : Type} (lo hi : nat) (m : M L A) : Prop :=
  forall t, exists rest,
    fst (m t) = t ++ rest /\
    StronglySorted lt (sites rest) /\
    Forall (fun k => (lo <= k < hi)%nat) (sites rest).

(** [lib_raises m]: when [m] raises, the exception is the one raised by
    the library call that is the last event of the trace. *)
Definition lib_raises {L : Qiskit} {A : Type} (m : M L A) : Prop :=
  forall t e, snd (m t) = Raise e ->
    exists pre c, fst (m t) = pre ++ [Called c (Some e)].

(** [prints l m]: a run of [m] that returns has made the [print] calls of
    formats [l], in order. *)
Definition prints {L : Qiskit} {A : Type} (l : list string) (m : M L A)
  : Prop :=
  forall t t' a, m t = (t', Ok a) -> formats t' = formats t ++ l.

(** The cells that follow the reduction cell, as [notebook] runs them. *)
Definition after_hamiltonian (L : Qiskit) (v : Setup L) (h : Hamiltonian L)
  : M L (Outcome L) :=
  bind (cell_exact L v h) (fun exact =>
  bind (cell_backend L) (fun backend =>
  bind (cell_vqe_setup L v h backend) (fun vq =>
  bind (cell_vqe_run L v h (fst vq) (snd vq)) (fun results =>
  ret {| out_setup := v;
         out_hamiltonian := h;
         out_exact := exact;
         out_vqe := results |})))).

(** What the solver cells hand to the library: the qubit operator [q] to
    both eigensolvers, and the counts [nso], [np] and mapping [mt] to the
    initial state and the variational form. *)
Definition solver_inputs {L : Qiskit} (q : QubitOp L) (nso np : Z)
  (mt : string) (ev : Event L) : Prop :=
  match ev with
  | Called (call_NumPyMinimumEigensolver q1) _ => q1 = q
  | Called (call_HartreeFock a b m r) _ =>
      a = nso /\ b = np /\ m = mt /\ r = qubit_reduction_of mt
  | Called (call_UCCSD a b occ unocc _ m r slices) _ =>
      a = nso /\ b = np /\ m = mt /\ r = qubit_reduction_of mt
  | Called (call_VQE q1 _ _) _ => q1 = q
  | _ => True
  end.

(** The counts and mapping handed to the initial state and the variational
    form, whatever the operator. *)
Definition ansatz_inputs {L : Qiskit} (nso np : Z) (mt : string)
  (ev : Event L) : Prop :=
  match ev with
  | Called (call_HartreeFock a b m r) _ =>
      a = nso /\ b = np /\ m = mt /\ r = qubit_reduction_of mt
  | Called (call_UCCSD a b occ unocc _ m r slices) _ =>
      a = nso /\ b = np /\ m = mt /\ r = qubit_reduction_of mt
  | _ => True
  end.

(** An event that is no call into the solver cells. *)
Definition before_solvers {L : Qiskit} (ev : Event L) : Prop :=
  match ev with
  | Called c _ => (call_site c < 9)%nat
  | Printed _ _ => True
  end.

(** ** Properties of index normalization *)

Section Normalization.

Lemma len_nil {A : Type} : len (@nil A) = 0.
Proof. reflexivity. Qed.

Lemma len_app {A : Type} (l1 l2 : list A) : len (l1 ++ l2) = len l1 + len l2.
Proof. unfold len. rewrite length_app. lia. Qed.

Lemma len_map {A B : Type} (f : A -> B) (l : list A) : len (map f l) = len l.
Proof. unfold len. now rewrite length_map. Qed.

Lemma len_pos_iff {A : Type} (l : list A) : (len l >? 0) = true <-> l <> [].
Proof.
  destruct l as [|a l]; cbn.
  - split; [discriminate | congruence].
  - split; [discriminate | intros _; unfold len; cbn; lia].
Qed.

Lemma py_mod_nonzero (x n : Z) : n <> 0 -> py_mod x n = Ok (x mod n).
Proof.
  intros Hn. unfold py_mod.
  destruct (Z.eqb_spec n 0); [contradiction | reflexivity].
Qed.

Lemma comprehension_mod (n : Z) (l : list Z) :
  n <> 0 ->
  comprehension (fun x => py_mod x n) l = Ok (map (fun x => x mod n) l).
Proof.
  intros Hn. induction l as [|x l IH]; cbn.
  - reflexivity.
  - rewrite (py_mod_nonzero x n Hn). cbn. rewrite IH. reflexivity.
Qed.

Lemma comprehension_mod_zero (l : list Z) :
  comprehension (fun x => py_mod x 0) l =
  match l with [] => Ok [] | _ :: _ => Raise ZeroDivisionError end.
Proof. destruct l; reflexivity. Qed.

Lemma normalize_index_lists_nonzero (n : Z) (fl rl : list Z) :
  n <> 0 ->
  normalize_index_lists n fl rl =
  Ok (mirrored_freeze n fl, mirrored_remove n fl rl).
Proof.
  intros Hn. unfold normalize_index_lists.
  rewrite !comprehension_mod by assumption. cbn.
  unfold mirrored_freeze, mirrored_remove.
  rewrite !map_map, len_map. reflexivity.
Qed.

Lemma normalize_index_lists_inv (n : Z) (fl rl F R : list Z) :
  normalize_index_lists n fl rl = Ok (F, R) ->
  F = mirrored_freeze n fl /\ R = mirrored_remove n fl rl.
Proof.
  destruct (Z.eq_dec n 0) as [-> | Hn].
  - unfold normalize_index_lists. rewrite !comprehension_mod_zero.
    destruct rl; [|discriminate]. destruct fl; [|discriminate].
    cbn. intros H. injection H as <- <-. split; reflexivity.
  - rewrite normalize_index_lists_nonzero by assumption.
    intros H. injection H as <- <-. split; reflexivity.
Qed.

Lemma len_mirrored_freeze (n : Z) (fl : list Z) :
  len (mirrored_freeze n fl) = 2 * len fl.
Proof. unfold mirrored_freeze. rewrite len_app, !len_map. lia. Qed.

Lemma len_mirrored_remove (n : Z) (fl rl : list Z) :
  len (mirrored_remove n fl rl) = 2 * len rl.
Proof. unfold mirrored_remove. rewrite len_app, !len_map. lia. Qed.

Lemma mirrored_freeze_nil_iff (n : Z) (fl : list Z) :
  mirrored_freeze n fl = [] <-> fl = [].
Proof.
  destruct fl; cbn; split; intros H; try reflexivity; discriminate.
Qed.

Lemma mirrored_remove_nil_iff (n : Z) (fl rl : list Z) :
  mirrored_remove n fl rl = [] <-> rl = [].
Proof.
  destruct rl; cbn; split; intros H; try reflexivity; discriminate.
Qed.

Lemma mirrored_freeze_residues (n : Z) (fl : list Z) :
  mirrored_freeze n fl =
  map (fun x => x mod n) fl ++ map (fun a => a + n) (map (fun x => x mod n) fl).
Proof. unfold mirrored_freeze. now rewrite map_map. Qed.

Lemma mirrored_remove_residues (n : Z) (fl rl : list Z) :
  mirrored_remove n fl rl =
  map (fun a => a - len fl) (map (fun x => x mod n) rl) ++
  map (fun a => (a - len fl) + n - len fl) (map (fun x => x mod n) rl).
Proof. unfold mirrored_remove. now rewrite !map_map. Qed.

End Normalization.

Section IndexClaims.

Lemma raw_in_range_cons_pos (n x : Z) (l : list Z) :
  raw_in_range n (x :: l) -> 0 < n.
Proof. intros H. inversion H; subst. lia. Qed.

Lemma raw_in_range_mod (n : Z) (l : list Z) :
  raw_in_range n l -> Forall (fun x => 0 <= x mod n < n) l.
Proof.
  intros H. eapply Forall_impl; [|exact H]. cbn. intros x Hx.
  apply Z.mod_pos_bound. lia.
Qed.

Lemma raw_in_range_normalizes (n : Z) (fl rl : list Z) :
  raw_in_range n fl -> raw_in_range n rl ->
  normalize_index_lists n fl rl =
  Ok (mirrored_freeze n fl, mirrored_remove n fl rl).
Proof.
  intros Hf Hr. destruct (Z.eq_dec n 0) as [-> | Hn].
  - destruct fl as [|x fl].
    + destruct rl as [|y rl]; [reflexivity|].
      apply raw_in_range_cons_pos in Hr. lia.
    + apply raw_in_range_cons_pos in Hf. lia.
  - now apply normalize_index_lists_nonzero.
Qed.

Lemma raw_in_range_positive (n : Z) (l : list Z) :
  raw_in_range n l ->
  map (fun x => x mod n) l = map (fun x => if x <? 0 then n + x else x) l.
Proof.
  intros Hl. apply map_ext_in. intros x Hx.
  unfold raw_in_range in Hl. rewrite Forall_forall in Hl.
  specialize (Hl x Hx). cbv beta in Hl.
  destruct (Z.ltb_spec x 0).
  - rewrite <- (Z.mod_add x 1 n) by lia.
    rewrite Z.mod_small; lia.
  - apply Z.mod_small. lia.
Qed.

(** C2: for raw lists within [[-n, n)] the normalization returns lists in
    which every raw index [x] has been replaced by [x mod n], that is by
    [n + x] when [x] is negative (so [-k] becomes [n - k]) and by [x]
    itself otherwise, before the shift by [len fl] and the mirroring into
    the second spin sector; the two comprehensions with [%] are where this
    happens. *)
Theorem normalization_offset_from_end (n : Z) (fl rl : list Z) :
  raw_in_range n fl -> raw_in_range n rl ->
  let positive := fun x => if x <? 0 then n + x else x in
  normalize_index_lists n fl rl =
    Ok (map positive fl ++ map (fun x => positive x + n) fl,
        map (fun x => positive x - len fl) rl ++
        map (fun x => positive x - len fl + n - len fl) rl) /\
  comprehension (fun x => py_mod x n) fl = Ok (map (fun x => x mod n) fl) /\
  comprehension (fun x => py_mod x n) rl = Ok (map (fun x => x mod n) rl) /\
  map (fun x => x mod n) fl = map positive fl /\
  map (fun x => x mod n) rl = map positive rl /\
  (forall k, 0 < k <= n -> py_mod (- k) n = Ok (n - k)) /\
  (forall x, 0 <= x < n -> py_mod x n = Ok x).
Proof.
  intros Hf Hr positive.
  pose proof (raw_in_range_positive n fl Hf) as Pf.
  pose proof (raw_in_range_positive n rl Hr) as Pr.
  fold positive in Pf, Pr.
  assert (Hcomp : forall l, raw_in_range n l ->
             comprehension (fun x => py_mod x n) l =
             Ok (map (fun x => x mod n) l)).
  { intros l Hl. destruct l as [|x l]; [reflexivity|].
    apply comprehension_mod. apply raw_in_range_cons_pos in Hl. lia. }
  split; [|split; [|split; [|split; [|split; [|split]]]]].
  - rewrite raw_in_range_normalizes by assumption.
    rewrite mirrored_freeze_residues, mirrored_remove_residues.
    rewrite Pf, Pr, !map_map. reflexivity.
  - now apply Hcomp.
  - now apply Hcomp.
  - exact Pf.
  - exact Pr.
  - intros k Hk. rewrite py_mod_nonzero by lia. f_equal.
    rewrite <- (Z.mod_add (- k) 1 n) by lia.
    rewrite Z.mod_small; lia.
  - intros x Hx. rewrite py_mod_nonzero by lia. f_equal.
    apply Z.mod_small. lia.
Qed.

Lemma normalization_offset_from_end_witness :
  raw_in_range 6 [0] /\ raw_in_range 6 [-3; -2] /\
  normalize_index_lists 6 [0] [-3; -2] = Ok ([0; 6], [2; 3; 7; 8]) /\
  comprehension (fun x => py_mod x 6) [-3; -2] = Ok [3; 4].
Proof.
  assert (Hf : raw_in_range 6 [0]) by (repeat constructor; lia).
  assert (Hr : raw_in_range 6 [-3; -2]) by (repeat constructor; lia).
  split; [exact Hf|]. split; [exact Hr|].
  pose proof (normalization_offset_from_end 6 [0] [-3; -2] Hf Hr)
    as (Hn & _ & Hc & _).
  split; [exact Hn | exact Hc].
Defined.

(** With six orbitals, freezing orbital 1 and removing orbital 0 gives the
    remove list [[-1; 4]], whose first index names no mode of the frozen
    operator. *)
Lemma normalized_lists_valid_counterexample :
  raw_in_range 6 [1] /\ raw_in_range 6 [0] /\
  normalize_index_lists 6 [1] [0] = Ok ([1; 7], [-1; 4]) /\
  ~ normalized_lists_valid 6 [1] [0].
Proof.
  split; [|split; [|split]].
  - repeat constructor; lia.
  - repeat constructor; lia.
  - reflexivity.
  - intros (F & R & Hrun & _ & HR).
    cbv in Hrun. injection Hrun as <- <-.
    inversion HR as [|i l Hi _]; subst. lia.
Qed.

(** X11: what the normalization as written guarantees about ranges.  For
    raw lists within [[-n, n)] it succeeds and every final freeze index is
    below [2 * n] and not negative; the final remove indices are all in
    [[0, 2 * n - 2 * len fl)] exactly when every raw remove index, once
    made non-negative, is at least [len fl].  Outside that case a remove
    index out of this range is handed to the library. *)
Theorem normalized_lists_bounds (n : Z) (fl rl : list Z) :
  raw_in_range n fl -> raw_in_range n rl ->
  exists F R,
    normalize_index_lists n fl rl = Ok (F, R) /\
    valid_modes (2 * n) F /\
    (valid_modes (2 * n - 2 * len fl) R <->
     Forall (fun x => len fl <= x mod n) rl).
Proof.
  intros Hf Hr.
  exists (mirrored_freeze n fl), (mirrored_remove n fl rl).
  split; [now apply raw_in_range_normalizes|].
  pose proof (raw_in_range_mod n fl Hf) as Hfm.
  pose proof (raw_in_range_mod n rl Hr) as Hrm.
  unfold valid_modes, mirrored_freeze, mirrored_remove.
  rewrite !Forall_app, !Forall_map.
  rewrite Forall_forall in Hfm, Hrm.
  split; [split|split].
  - apply Forall_forall. intros x Hx. specialize (Hfm x Hx). cbv beta in Hfm. lia.
  - apply Forall_forall. intros x Hx. specialize (Hfm x Hx). cbv beta in Hfm. lia.
  - intros [Ha _]. rewrite Forall_forall in Ha |- *.
    intros x Hx. specialize (Ha x Hx). cbv beta in Ha. lia.
  - intros Hge. rewrite Forall_forall in Hge.
    split; apply Forall_forall; intros x Hx;
      specialize (Hrm x Hx); specialize (Hge x Hx); cbv beta in *; lia.
Qed.

Lemma normalized_lists_bounds_witness :
  raw_in_range 6 [0] /\ raw_in_range 6 [-3; -2] /\
  exists F R,
    normalize_index_lists 6 [0] [-3; -2] = Ok (F, R) /\
    valid_modes (2 * 6) F /\
    (valid_modes (2 * 6 - 2 * len [0]) R <->
     Forall (fun x => len [0] <= x mod 6) [-3; -2]).
Proof.
  assert (Hf : raw_in_range 6 [0]) by (repeat constructor; lia).
  assert (Hr : raw_in_range 6 [-3; -2]) by (repeat constructor; lia).
  split; [exact Hf|]. split; [exact Hr|].
  exact (normalized_lists_bounds 6 [0] [-3; -2] Hf Hr).
Defined.

End IndexClaims.

(** ** Facts about runs *)

Section Runs.

Context {L : Qiskit}.

Implicit Types t : Trace L.

Lemma bind_Ok {A B : Type} (m : M L A) (f : A -> M L B) t t' b :
  bind m f t = (t', Ok b) ->
  exists t1 a, m t = (t1, Ok a) /\ f a t1 = (t', Ok b).
Proof.
  unfold bind. destruct (m t) as [t1 [e | a]].
  - discriminate.
  - intros H. now exists t1, a.
Qed.

Lemma bind_run {A B : Type} (m : M L A) (f : A -> M L B) t t1 a :
  m t = (t1, Ok a) -> bind m f t = f a t1.
Proof. unfold bind. now intros ->. Qed.

Lemma bind_raise {A B : Type} (m : M L A) (f : A -> M L B) t t1 e :
  m t = (t1, Raise e) -> bind m f t = (t1, Raise e).
Proof. unfold bind. now intros ->. Qed.

(** *** [adds] *)

Lemma adds_ret {A : Type} P (a : A) : adds (L:=L) P (ret a).
Proof. intros t. exists []. cbn. now rewrite app_nil_r. Qed.

Lemma adds_lift {A : Type} P (r : result A) : adds (L:=L) P (lift r).
Proof. intros t. exists []. cbn. now rewrite app_nil_r. Qed.

Lemma adds_lib {A : Type} (P : Event L -> Prop) c (r : result A) :
  (forall o, P (Called c o)) -> adds P (lib c r).
Proof. intros H t. exists [Called c (raised_by r)]. cbn. auto. Qed.

Lemma adds_print (P : Event L -> Prop) fmt arg :
  P (Printed fmt arg) -> adds P (print fmt arg).
Proof. intros H t. exists [Printed fmt arg]. cbn. auto. Qed.

Lemma adds_bind {A B : Type} P (m : M L A) (f : A -> M L B) :
  adds P m -> (forall a, adds P (f a)) -> adds P (bind m f).
Proof.
  intros Hm Hf t. destruct (Hm t) as (r1 & E1 & F1).
  unfold bind. destruct (m t) as [t1 [e | a]]; cbn in *.
  - now exists r1.
  - destruct (Hf a t1) as (r2 & E2 & F2). exists (r1 ++ r2).
    rewrite E2, E1, app_assoc. split; [reflexivity|].
    apply Forall_app. now split.
Qed.

Lemma adds_if {A : Type} P (b : bool) (m1 m2 : M L A) :
  adds P m1 -> adds P m2 -> adds P (if b then m1 else m2).
Proof. now destruct b. Qed.

(** *** [propagates] *)

Lemma clean_snoc t (ev : Event L) :
  clean t -> raised_in ev = None -> clean (t ++ [ev]).
Proof.
  intros Ht Hev. apply Forall_app. split; [assumption|].
  now constructor.
Qed.

Lemma clean_no_raise t pre c e post :
  clean t -> t <> pre ++ Called c (Some e) :: post.
Proof.
  intros Ht ->. apply Forall_app in Ht as [_ Ht].
  inversion Ht as [|? ? Hev _]. discriminate.
Qed.

Lemma propagates_ret {A : Type} (a : A) : propagates (L:=L) (ret a).
Proof. intros t Ht. exact Ht. Qed.

Lemma propagates_lift {A : Type} (r : result A) : propagates (L:=L) (lift r).
Proof. intros t Ht. destruct r; cbn; auto. Qed.

Lemma propagates_lib {A : Type} c (r : result A) : propagates (L:=L) (lib c r).
Proof.
  intros t Ht. destruct r as [e | a]; cbn.
  - right. now exists t, c.
  - now apply clean_snoc.
Qed.

Lemma propagates_print fmt arg : propagates (L:=L) (print fmt arg).
Proof. intros t Ht. cbn. now apply clean_snoc. Qed.

Lemma propagates_bind {A B : Type} (m : M L A) (f : A -> M L B) :
  propagates m -> (forall a, propagates (f a)) -> propagates (bind m f).
Proof.
  intros Hm Hf t Ht. specialize (Hm t Ht).
  unfold bind. destruct (m t) as [t1 [e | a]]; cbn in *.
  - exact Hm.
  - now apply Hf.
Qed.

Lemma propagates_if {A : Type} (b : bool) (m1 m2 : M L A) :
  propagates m1 -> propagates m2 -> propagates (if b then m1 else m2).
Proof. now destruct b. Qed.

(** What fail-fast says about any raising call found in the trace. *)
Lemma fail_fast_last {A : Type} (run : Trace L * result A) pre c e post :
  fail_fast run ->
  fst run = pre ++ Called c (Some e) :: post ->
  post = [] /\ snd run = Raise e.
Proof.
  destruct run as [t r]. cbn. intros Hff ->.
  assert (Hlast : forall e' pre' c',
             pre ++ Called c (Some e) :: post = pre' ++ [Called c' (Some e')] ->
             clean pre' -> post = [] /\ e' = e).
  { intros e' pre' c' E Hpre'.
    destruct (exists_last (l:=Called c (Some e) :: post)) as (l' & z & El);
      [discriminate|].
    rewrite El, app_assoc in E. apply app_inj_tail in E as [<- ->].
    destruct l' as [|y l'].
    - cbn in El. destruct post; [|destruct post; discriminate].
      injection El as <-. now split.
    - exfalso. cbn in El. injection El as <- _.
      eapply clean_no_raise; [exact Hpre' | reflexivity]. }
  destruct r as [e' | a]; cbn in Hff.
  - destruct Hff as [Hc | (pre' & c' & E & Hpre')].
    + exfalso. eapply clean_no_raise; [exact Hc | reflexivity].
    + destruct (Hlast e' pre' c' E Hpre') as [-> ->]. now split.
  - exfalso. eapply clean_no_raise; [exact Hff | reflexivity].
Qed.

End Runs.

Ltac unfold_cells :=
  unfold notebook, cell_molecule, cell_setup, cell_hamiltonian, cell_exact,
    cell_backend, cell_vqe_setup, cell_vqe_run, mapping_stage,
    freezing_stage, elimination_stage,
    do_PySCFDriver, do_driver_run, do_FermionicOperator,
    do_fermion_mode_freezing, do_fermion_mode_elimination, do_mapping,
    do_two_qubit_reduction, do_chop, do_print_details,
    do_NumPyMinimumEigensolver, do_exact_run, do_get_backend, do_COBYLA,
    do_HartreeFock, do_UCCSD, do_VQE, do_QuantumInstance, do_vqe_run.

(** Structural proof of a property of a computation that is preserved by
    [bind] and [if] and holds of the primitive steps. *)
Ltac by_structure :=
  unfold_cells; cbv zeta;
  repeat first
    [ progress intros
    | apply propagates_bind | apply propagates_if | apply propagates_lib
    | apply propagates_print | apply propagates_ret | apply propagates_lift
    | apply adds_bind | apply adds_if | apply adds_ret | apply adds_lift
    | apply adds_print; reflexivity
    | apply adds_lib; intros; reflexivity ].

(** ** The reduction stages *)

Section Stages.

Context (L : Qiskit).

Implicit Types (t : Trace L) (s : Reduction L).

Lemma freezing_stage_nil s t : freezing_stage L [] s t = (t, Ok s).
Proof. reflexivity. Qed.

Lemma elimination_stage_nil s t : elimination_stage L [] s t = (t, Ok s).
Proof. reflexivity. Qed.

Lemma freezing_stage_run fl s t :
  fl <> [] ->
  freezing_stage L fl s t =
  (t ++ [Called (call_fermion_mode_freezing (ferOp s) fl)
           (raised_by (fermion_mode_freezing L (ferOp s) fl))],
   match fermion_mode_freezing L (ferOp s) fl with
   | inl e => Raise e
   | inr r =>
       Ok {| ferOp := fst r;
             energy_shift := snd r;
             num_spin_orbitals := num_spin_orbitals s - len fl;
             num_particles := num_particles s - len fl |}
   end).
Proof.
  intros Hfl. apply len_pos_iff in Hfl.
  unfold freezing_stage. rewrite Hfl.
  unfold bind, do_fermion_mode_freezing, lib.
  now destruct (fermion_mode_freezing L (ferOp s) fl).
Qed.

Lemma elimination_stage_run rl s t :
  rl <> [] ->
  elimination_stage L rl s t =
  (t ++ [Called (call_fermion_mode_elimination (ferOp s) rl)
           (raised_by (fermion_mode_elimination L (ferOp s) rl))],
   match fermion_mode_elimination L (ferOp s) rl with
   | inl e => Raise e
   | inr op =>
       Ok {| ferOp := op;
             energy_shift := energy_shift s;
             num_spin_orbitals := num_spin_orbitals s - len rl;
             num_particles := num_particles s |}
   end).
Proof.
  intros Hrl. apply len_pos_iff in Hrl.
  unfold elimination_stage. rewrite Hrl.
  unfold bind, do_fermion_mode_elimination, lib.
  now destruct (fermion_mode_elimination L (ferOp s) rl).
Qed.

Lemma freezing_stage_counts fl s t t1 s1 :
  freezing_stage L fl s t = (t1, Ok s1) ->
  num_spin_orbitals s1 = num_spin_orbitals s - len fl /\
  num_particles s1 = num_particles s - len fl.
Proof.
  destruct fl as [|x fl].
  - rewrite freezing_stage_nil. intros H. injection H as _ <-.
    rewrite len_nil. lia.
  - rewrite freezing_stage_run by discriminate.
    destruct (fermion_mode_freezing L (ferOp s) (x :: fl)); [discriminate|].
    intros H. injection H as _ <-. cbn. lia.
Qed.

Lemma elimination_stage_counts rl s t t1 s1 :
  elimination_stage L rl s t = (t1, Ok s1) ->
  num_spin_orbitals s1 = num_spin_orbitals s - len rl /\
  num_particles s1 = num_particles s /\
  energy_shift s1 = energy_shift s.
Proof.
  destruct rl as [|x rl].
  - rewrite elimination_stage_nil. intros H. injection H as _ <-.
    rewrite len_nil. repeat split; lia.
  - rewrite elimination_stage_run by discriminate.
    destruct (fermion_mode_elimination L (ferOp s) (x :: rl)); [discriminate|].
    intros H. injection H as _ <-. cbn. repeat split; lia.
Qed.

(** What a successful run of the reduction cell went through. *)
Lemma cell_hamiltonian_Ok molecule v t t' h :
  cell_hamiltonian L molecule v t = (t', Ok h) ->
  exists op0 s1 t1 t2,
    normalize_index_lists (num_orbitals L molecule)
      (raw_freeze_list v) (raw_remove_list v)
    = Ok (freeze_list h, remove_list h) /\
    FermionicOperator L (h1 v) (h2 v) = Ok op0 /\
    freezing_stage L (freeze_list h)
      {| ferOp := op0; energy_shift := float_zero;
         num_spin_orbitals := num_spin_orbitals0 v;
         num_particles := num_particles0 v |}
      (t ++ [Called (call_FermionicOperator (h1 v) (h2 v)) None])
    = (t1, Ok s1) /\
    elimination_stage L (remove_list h) s1 t1 = (t2, Ok (reduced h)) /\
    qubit_reduction h = qubit_reduction_of (map_type v) /\
    exists t3,
      mapping_stage L (map_type v) (qubit_reduction h) (reduced h) t2
      = (t3, Ok (qubitOp h)).
Proof.
  unfold cell_hamiltonian. intros H.
  apply bind_Ok in H as (t0 & lists & Hn & H). cbv zeta in H.
  unfold lift in Hn. injection Hn as <- Hn.
  apply bind_Ok in H as (t0' & op0 & Hop & H).
  unfold do_FermionicOperator, lib in Hop.
  injection Hop as <- Hop.
  apply bind_Ok in H as (t1 & s1 & Hfr & H).
  apply bind_Ok in H as (t2 & s2 & Hel & H).
  apply bind_Ok in H as (t3 & q & Hmap & H).
  apply bind_Ok in H as (t4 & details & _ & H).
  apply bind_Ok in H as (t5 & ? & _ & H).
  apply bind_Ok in H as (t6 & ? & _ & H).
  unfold ret in H. injection H as _ <-. cbn.
  exists op0, s1, t1, t2.
  rewrite Hop in Hfr. cbn in Hfr.
  destruct lists as [F R]. cbn in *.
  repeat split; try assumption.
  now exists t3.
Qed.

End Stages.

(** ** The reduction pipeline: counts *)

Section Counts.

Context (L : Qiskit).

Implicit Types (t : Trace L) (s : Reduction L).

(** C1: after a run of the reduction cell, [num_spin_orbitals] is its
    initial value minus [len(freeze_list) + len(remove_list)], the lists
    being the final, spin-mirrored ones the library calls receive, each
    twice as long as the raw list.  With the notebook's lists and six
    orbitals, 12 becomes 6. *)
Theorem reduction_spin_orbital_count cfg molecule t0 t v h :
  snd (cell_setup L cfg molecule t0) = Ok v ->
  snd (cell_hamiltonian L molecule v t) = Ok h ->
  num_spin_orbitals (reduced h) =
    num_spin_orbitals0 v - (len (freeze_list h) + len (remove_list h)) /\
  len (freeze_list h) = 2 * len (cfg_freeze_list cfg) /\
  len (remove_list h) = 2 * len (cfg_remove_list cfg) /\
  (cfg = notebook_config -> num_orbitals L molecule = 6 ->
   num_spin_orbitals0 v = 12 /\ num_spin_orbitals (reduced h) = 6).
Proof.
  intros Hv Hh. cbn in Hv. injection Hv as <-.
  destruct (cell_hamiltonian L molecule _ t) as [t' r] eqn:Hrun.
  cbn in Hh. subst r.
  apply cell_hamiltonian_Ok in Hrun
    as (op0 & s1 & t1 & t2 & Hn & _ & Hfr & Hel & _).
  apply freezing_stage_counts in Hfr as [Hfr _].
  apply elimination_stage_counts in Hel as [Hel _].
  cbn in Hfr. split; [|split; [|split]].
  - cbn. lia.
  - apply normalize_index_lists_inv in Hn as [-> _].
    apply len_mirrored_freeze.
  - apply normalize_index_lists_inv in Hn as [_ ->].
    apply len_mirrored_remove.
  - intros -> Hsix. cbn in Hn |- *. rewrite Hsix in *.
    change (normalize_index_lists 6 [0] [-3; -2])
      with (Ok ([0; 6], [2; 3; 7; 8])) in Hn.
    injection Hn as Hf Hr. rewrite <- Hf in Hfr. rewrite <- Hr in Hel.
    change (len [0; 6]) with 2 in Hfr.
    change (len [2; 3; 7; 8]) with 4 in Hel. lia.
Qed.

(** C9: the freezing stage takes [len(freeze_list)] off [num_particles],
    the elimination stage leaves it alone; with the notebook's lists, six
    orbitals and four electrons, 4 becomes 2. *)
Theorem freezing_reduces_particle_count :
  (forall fl s t s1,
     snd (freezing_stage L fl s t) = Ok s1 ->
     num_particles s1 = num_particles s - len fl) /\
  (forall rl s t s2,
     snd (elimination_stage L rl s t) = Ok s2 ->
     num_particles s2 = num_particles s) /\
  (forall cfg molecule t0 t v h,
     snd (cell_setup L cfg molecule t0) = Ok v ->
     snd (cell_hamiltonian L molecule v t) = Ok h ->
     num_particles (reduced h) = num_particles0 v - len (freeze_list h) /\
     (cfg = notebook_config -> num_orbitals L molecule = 6 ->
      num_alpha L molecule + num_beta L molecule = 4 ->
      num_particles0 v = 4 /\ num_particles (reduced h) = 2)).
Proof.
  split; [|split].
  - intros fl s t s1 H.
    destruct (freezing_stage L fl s t) as [t1 r] eqn:Hrun.
    cbn in H. subst r. now apply freezing_stage_counts in Hrun.
  - intros rl s t s2 H.
    destruct (elimination_stage L rl s t) as [t1 r] eqn:Hrun.
    cbn in H. subst r. now apply elimination_stage_counts in Hrun.
  - intros cfg molecule t0 t v h Hv Hh. cbn in Hv. injection Hv as <-.
    destruct (cell_hamiltonian L molecule _ t) as [t' r] eqn:Hrun.
    cbn in Hh. subst r.
    apply cell_hamiltonian_Ok in Hrun
      as (op0 & s1 & t1 & t2 & Hn & _ & Hfr & Hel & _).
    apply freezing_stage_counts in Hfr as [_ Hfr].
    apply elimination_stage_counts in Hel as (_ & Hel & _).
    cbn in Hfr. split.
    + cbn. lia.
    + intros -> Hsix Hfour. cbn in Hn |- *. rewrite Hsix in *.
      change (normalize_index_lists 6 [0] [-3; -2])
        with (Ok ([0; 6], [2; 3; 7; 8])) in Hn.
      injection Hn as Hf Hr. rewrite <- Hf in Hfr.
      change (len [0; 6]) with 2 in Hfr. lia.
Qed.

End Counts.

Lemma reduction_spin_orbital_count_witness :
  snd (cell_setup (counting_library None) notebook_config tt []) =
    Ok lih_setup /\
  snd (cell_hamiltonian (counting_library None) tt lih_setup []) =
    Ok lih_hamiltonian /\
  num_spin_orbitals (reduced lih_hamiltonian) =
    num_spin_orbitals0 lih_setup -
    (len (freeze_list lih_hamiltonian) + len (remove_list lih_hamiltonian)).
Proof.
  assert (H1 : snd (cell_setup (counting_library None) notebook_config tt [])
               = Ok lih_setup) by reflexivity.
  assert (H2 : snd (cell_hamiltonian (counting_library None) tt lih_setup [])
               = Ok lih_hamiltonian) by reflexivity.
  split; [exact H1|]. split; [exact H2|].
  exact (proj1 (reduction_spin_orbital_count (counting_library None)
                  notebook_config tt [] [] lih_setup lih_hamiltonian H1 H2)).
Defined.

Lemma freezing_reduces_particle_count_witness :
  (snd (freezing_stage (counting_library None) [0; 6] lih_initial []) =
     Ok lih_frozen /\
   num_particles lih_frozen = num_particles lih_initial - len [0; 6]) /\
  (snd (elimination_stage (counting_library None) [2; 3; 7; 8] lih_frozen [])
     = Ok lih_reduced /\
   num_particles lih_reduced = num_particles lih_frozen) /\
  (snd (cell_setup (counting_library None) notebook_config tt []) =
     Ok lih_setup /\
   snd (cell_hamiltonian (counting_library None) tt lih_setup []) =
     Ok lih_hamiltonian /\
   num_particles0 lih_setup = 4 /\
   num_particles (reduced lih_hamiltonian) = 2).
Proof.
  pose proof (freezing_reduces_particle_count (counting_library None))
    as (Hfr & Hel & Hcell).
  assert (H1 : snd (freezing_stage (counting_library None) [0; 6]
                      lih_initial []) = Ok lih_frozen) by reflexivity.
  assert (H2 : snd (elimination_stage (counting_library None) [2; 3; 7; 8]
                      lih_frozen []) = Ok lih_reduced) by reflexivity.
  assert (H3 : snd (cell_setup (counting_library None) notebook_config tt [])
               = Ok lih_setup) by reflexivity.
  assert (H4 : snd (cell_hamiltonian (counting_library None) tt lih_setup [])
               = Ok lih_hamiltonian) by reflexivity.
  split; [split; [exact H1 | exact (Hfr _ _ _ _ H1)]|].
  split; [split; [exact H2 | exact (Hel _ _ _ _ H2)]|].
  split; [exact H3|]. split; [exact H4|].
  exact (proj2 (Hcell notebook_config tt [] [] lih_setup lih_hamiltonian
                  H3 H4) eq_refl eq_refl eq_refl).
Defined.

(** ** The reduction pipeline: which calls are made *)

Section Calls.

Context (L : Qiskit).

Implicit Types (t : Trace L) (s : Reduction L).

Lemma adds_bind_lift {A B : Type} (P : Event L -> Prop) (r : result A)
  (f : A -> M L B) :
  (forall a, r = Ok a -> adds P (f a)) -> adds P (bind (lift r) f).
Proof.
  intros Hf t. unfold bind, lift. destruct r as [e | a].
  - exists []. cbn. now rewrite app_nil_r.
  - now apply Hf.
Qed.

Lemma normalized_freeze_nil n fl rl F R :
  normalize_index_lists n fl rl = Ok (F, R) -> fl = [] -> F = [].
Proof.
  intros H ->. now apply normalize_index_lists_inv in H as [-> _].
Qed.

Lemma normalized_remove_nil n fl rl F R :
  normalize_index_lists n fl rl = Ok (F, R) -> rl = [] -> R = [].
Proof.
  intros H ->. now apply normalize_index_lists_inv in H as [_ ->].
Qed.

Lemma no_freezing_call molecule (v : Setup L) :
  raw_freeze_list v = [] ->
  adds (fun ev => is_freezing_call ev = false) (cell_hamiltonian L molecule v).
Proof.
  intros Hraw. unfold cell_hamiltonian.
  apply adds_bind_lift. intros [F R] Hn.
  apply normalized_freeze_nil in Hn; [|assumption]. cbn in Hn. subst F.
  cbv zeta. cbn [fst snd].
  apply adds_bind; [by_structure|]. intros op0.
  apply adds_bind; [unfold freezing_stage; cbn; apply adds_ret|].
  by_structure.
Qed.

Lemma no_elimination_call molecule (v : Setup L) :
  raw_remove_list v = [] ->
  adds (fun ev => is_elimination_call ev = false)
       (cell_hamiltonian L molecule v).
Proof.
  intros Hraw. unfold cell_hamiltonian.
  apply adds_bind_lift. intros [F R] Hn.
  apply normalized_remove_nil in Hn; [|assumption]. cbn in Hn. subst R.
  cbv zeta. cbn [fst snd].
  apply adds_bind; [by_structure|]. intros op0.
  apply adds_bind; [by_structure|]. intros s1.
  apply adds_bind; [unfold elimination_stage; cbn; apply adds_ret|].
  by_structure.
Qed.

(** C5: with an empty freeze list the freezing stage makes no call and
    leaves the operator, [energy_shift], [num_particles] and
    [num_spin_orbitals] as they were; with an empty remove list the
    elimination stage does the same.  In the cell, an empty raw freeze list
    means no freezing call is made and [energy_shift] ends as [0.0]; an
    empty raw remove list means no elimination call is made. *)
Theorem empty_lists_are_noops :
  (forall s t, freezing_stage L [] s t = (t, Ok s)) /\
  (forall s t, elimination_stage L [] s t = (t, Ok s)) /\
  (forall molecule v, raw_freeze_list v = [] ->
     adds (fun ev => is_freezing_call ev = false)
          (cell_hamiltonian L molecule v) /\
     forall t h, snd (cell_hamiltonian L molecule v t) = Ok h ->
       freeze_list h = [] /\
       energy_shift (reduced h) = float_zero /\
       num_particles (reduced h) = num_particles0 v /\
       num_spin_orbitals (reduced h) =
         num_spin_orbitals0 v - len (remove_list h)) /\
  (forall molecule v, raw_remove_list v = [] ->
     adds (fun ev => is_elimination_call ev = false)
          (cell_hamiltonian L molecule v) /\
     forall t h, snd (cell_hamiltonian L molecule v t) = Ok h ->
       remove_list h = [] /\
       num_spin_orbitals (reduced h) =
         num_spin_orbitals0 v - len (freeze_list h)).
Proof.
  split; [|split; [|split]].
  - intros s t. apply freezing_stage_nil.
  - intros s t. apply elimination_stage_nil.
  - intros molecule v Hraw. split; [now apply no_freezing_call|].
    intros t h Hh.
    destruct (cell_hamiltonian L molecule v t) as [t' r] eqn:Hrun.
    cbn in Hh. subst r.
    apply cell_hamiltonian_Ok in Hrun
      as (op0 & s1 & t1 & t2 & Hn & _ & Hfr & Hel & _).
    apply normalized_freeze_nil in Hn; [|assumption].
    rewrite Hn in *. rewrite freezing_stage_nil in Hfr.
    injection Hfr as _ <-.
    apply elimination_stage_counts in Hel as (Hc & Hp & He).
    cbn in Hc, Hp, He. repeat split; assumption.
  - intros molecule v Hraw. split; [now apply no_elimination_call|].
    intros t h Hh.
    destruct (cell_hamiltonian L molecule v t) as [t' r] eqn:Hrun.
    cbn in Hh. subst r.
    apply cell_hamiltonian_Ok in Hrun
      as (op0 & s1 & t1 & t2 & Hn & _ & Hfr & Hel & _).
    apply normalized_remove_nil in Hn; [|assumption].
    rewrite Hn in *. rewrite elimination_stage_nil in Hel.
    injection Hel as _ <-.
    apply freezing_stage_counts in Hfr as [Hc _].
    cbn in Hc. split; [reflexivity | assumption].
Qed.

(** When both raw lists are non-empty, the cell calls
    [fermion_mode_freezing] on the original operator and then
    [fermion_mode_elimination] on the operator freezing returned.  The
    elimination indices are [x mod n - len fl] in the alpha sector and that
    plus [n - len fl], the size of a frozen sector, in the beta sector: each
    raw remove index lowered by the number of orbitals frozen per sector. *)
Lemma cell_hamiltonian_calls molecule (v : Setup L) t op0 op1 shift :
  let n := num_orbitals L molecule in
  let F := mirrored_freeze n (raw_freeze_list v) in
  let R := mirrored_remove n (raw_freeze_list v) (raw_remove_list v) in
  n <> 0 -> raw_freeze_list v <> [] -> raw_remove_list v <> [] ->
  FermionicOperator L (h1 v) (h2 v) = Ok op0 ->
  fermion_mode_freezing L op0 F = Ok (op1, shift) ->
  R = map (fun x => x mod n - len (raw_freeze_list v)) (raw_remove_list v) ++
      map (fun x => (x mod n - len (raw_freeze_list v))
                    + n - len (raw_freeze_list v)) (raw_remove_list v) /\
  exists rest,
    fst (cell_hamiltonian L molecule v t) =
    t ++ [Called (call_FermionicOperator (h1 v) (h2 v)) None;
          Called (call_fermion_mode_freezing op0 F) None;
          Called (call_fermion_mode_elimination op1 R)
            (raised_by (fermion_mode_elimination L op1 R))] ++ rest.
Proof.
  intros n F R Hn Hfl Hrl Hop Hfr. split; [reflexivity|].
  assert (HF : F <> []).
  { unfold F. now rewrite mirrored_freeze_nil_iff. }
  assert (HR : R <> []).
  { unfold R. now rewrite mirrored_remove_nil_iff. }
  unfold cell_hamiltonian.
  erewrite bind_run;
    [|unfold lift; rewrite normalize_index_lists_nonzero by exact Hn;
      reflexivity].
  cbv zeta. cbn [fst snd]. fold n F R.
  erewrite bind_run;
    [|unfold do_FermionicOperator, lib; rewrite Hop; reflexivity].
  erewrite bind_run;
    [|rewrite freezing_stage_run by exact HF; cbn [ferOp];
      rewrite Hfr; reflexivity].
  cbn [fst snd raised_by Ok].
  match goal with
  | |- context [bind (elimination_stage L R ?s) ?k ?t1] =>
      set (s1 := s); set (rest_of_cell := k); set (t' := t1)
  end.
  pose proof (elimination_stage_run L R s1 t' HR) as Hel.
  cbn [ferOp s1] in Hel.
  destruct (fermion_mode_elimination L op1 R) as [e | op2] eqn:Helim.
  - erewrite bind_raise by exact Hel. exists []. cbn [fst].
    unfold t'. rewrite <- !app_assoc. reflexivity.
  - erewrite bind_run by exact Hel.
    assert (Hrest : forall s2, adds (fun _ => True) (rest_of_cell s2)).
    { intros s2. unfold rest_of_cell. by_structure; exact I. }
    destruct (Hrest
                {| ferOp := op2; energy_shift := energy_shift s1;
                   num_spin_orbitals := num_spin_orbitals s1 - len R;
                   num_particles := num_particles s1 |}
                (t' ++ [Called (call_fermion_mode_elimination op1 R) None]))
      as (rest & E & _).
    exists rest. cbn [raised_by]. rewrite E. unfold t'.
    rewrite <- !app_assoc. reflexivity.
Qed.


(** C6: an index out of range does reach the library.  With six orbitals,
    orbital 1 frozen and orbital 0 removed, both raw lists are within
    [[-6, 6)], freezing takes out modes 1 and 7, the spin orbitals 0 and 6
    of orbital 0 are then modes 0 and 5 of the ten that remain, and the
    cell asks elimination for modes -1 and 4. *)
Theorem out_of_range_index_reaches_elimination molecule (v : Setup L) t
  op0 op1 shift :
  num_orbitals L molecule = 6 ->
  raw_freeze_list v = [1] -> raw_remove_list v = [0] ->
  FermionicOperator L (h1 v) (h2 v) = Ok op0 ->
  fermion_mode_freezing L op0 [1; 7] = Ok (op1, shift) ->
  raw_in_range 6 (raw_freeze_list v) /\ raw_in_range 6 (raw_remove_list v) /\
  (exists rest,
     fst (cell_hamiltonian L molecule v t) =
     t ++ [Called (call_FermionicOperator (h1 v) (h2 v)) None;
           Called (call_fermion_mode_freezing op0 [1; 7]) None;
           Called (call_fermion_mode_elimination op1 [-1; 4])
             (raised_by (fermion_mode_elimination L op1 [-1; 4]))]
       ++ rest) /\
  ~ valid_modes (2 * 6 - 2 * len [1]) [-1; 4] /\
  map (position_after_removal [1; 7]) [0; 6] = [0; 5].
Proof.
  intros Hsix Hfl Hrl Hop Hfr.
  split; [rewrite Hfl; repeat constructor; lia|].
  split; [rewrite Hrl; repeat constructor; lia|].
  split; [|split; [|reflexivity]].
  - pose proof (cell_hamiltonian_calls molecule v t op0 op1 shift) as H.
    cbv zeta in H. rewrite Hsix, Hfl, Hrl in H.
    change (mirrored_freeze 6 [1]) with [1; 7] in H.
    change (mirrored_remove 6 [1] [0]) with [-1; 4] in H.
    apply H; [lia | discriminate | discriminate | assumption | assumption].
  - intros HR. inversion HR as [|i l Hi _]; subst. lia.
Qed.


End Calls.

(** ** Reproducibility of the normalized lists *)

(** C3: for [freeze_list = [0]], [remove_list = [-3, -2]] and six orbitals
    the normalized, spin-mirrored lists are [[0; 6]] and [[2; 3; 7; 8]];
    any two successful runs of the cell on these inputs, whatever the
    library and whatever happened before, leave the same two lists. *)
Theorem normalization_deterministic :
  normalize_index_lists 6 [0] [-3; -2] = Ok ([0; 6], [2; 3; 7; 8]) /\
  forall (L1 L2 : Qiskit) m1 m2 (v1 : Setup L1) (v2 : Setup L2) t1 t2 r1 r2,
    num_orbitals L1 m1 = 6 -> num_orbitals L2 m2 = 6 ->
    raw_freeze_list v1 = [0] -> raw_freeze_list v2 = [0] ->
    raw_remove_list v1 = [-3; -2] -> raw_remove_list v2 = [-3; -2] ->
    snd (cell_hamiltonian L1 m1 v1 t1) = Ok r1 ->
    snd (cell_hamiltonian L2 m2 v2 t2) = Ok r2 ->
    freeze_list r1 = freeze_list r2 /\ remove_list r1 = remove_list r2 /\
    freeze_list r1 = [0; 6] /\ remove_list r1 = [2; 3; 7; 8].
Proof.
  split; [reflexivity|].
  assert (Hone : forall (L : Qiskit) m (v : Setup L) t r,
             num_orbitals L m = 6 ->
             raw_freeze_list v = [0] -> raw_remove_list v = [-3; -2] ->
             snd (cell_hamiltonian L m v t) = Ok r ->
             freeze_list r = [0; 6] /\ remove_list r = [2; 3; 7; 8]).
  { intros L m v t r Hsix Hf Hr Hrun.
    destruct (cell_hamiltonian L m v t) as [t' x] eqn:E.
    cbn in Hrun. subst x.
    apply cell_hamiltonian_Ok in E as (_ & _ & _ & _ & Hn & _).
    rewrite Hsix, Hf, Hr in Hn.
    change (normalize_index_lists 6 [0] [-3; -2])
      with (Ok ([0; 6], [2; 3; 7; 8])) in Hn.
    injection Hn as <- <-. now split. }
  intros L1 L2 m1 m2 v1 v2 t1 t2 r1 r2 S1 S2 F1 F2 R1 R2 H1 H2.
  destruct (Hone L1 m1 v1 t1 r1 S1 F1 R1 H1) as [-> ->].
  destruct (Hone L2 m2 v2 t2 r2 S2 F2 R2 H2) as [-> ->].
  repeat split.
Qed.

(** ** Exceptions *)

Lemma notebook_propagates (L : Qiskit) (cfg : Config) :
  propagates (notebook L cfg).
Proof. by_structure. Qed.

(** C7: in a run of the notebook, a library call that raised is the last
    event of the run, so nothing runs after it (no retry, no fallback, no
    further call or print), and the run ends with the exception the call
    raised. *)
Theorem library_errors_propagate (L : Qiskit) (cfg : Config) pre c e post :
  fst (notebook L cfg []) = pre ++ Called c (Some e) :: post ->
  post = [] /\ snd (notebook L cfg []) = Raise e.
Proof.
  apply fail_fast_last. apply notebook_propagates. constructor.
Qed.

(** ** The theorems at work on the stand-in library *)

Lemma empty_lists_are_noops_witness :
  raw_freeze_list bare_setup = [] /\ raw_remove_list bare_setup = [] /\
  snd (cell_hamiltonian (counting_library None) tt bare_setup []) =
    Ok bare_hamiltonian /\
  adds (fun ev => is_freezing_call ev = false)
       (cell_hamiltonian (counting_library None) tt bare_setup) /\
  adds (fun ev => is_elimination_call ev = false)
       (cell_hamiltonian (counting_library None) tt bare_setup) /\
  energy_shift (reduced bare_hamiltonian) = float_zero /\
  num_particles (reduced bare_hamiltonian) = num_particles0 bare_setup /\
  num_spin_orbitals (reduced bare_hamiltonian) =
    num_spin_orbitals0 bare_setup - len (freeze_list bare_hamiltonian).
Proof.
  pose proof (empty_lists_are_noops (counting_library None))
    as (_ & _ & Hfr & Hel).
  assert (Hrun : snd (cell_hamiltonian (counting_library None) tt
                        bare_setup []) = Ok bare_hamiltonian)
    by reflexivity.
  destruct (Hfr tt bare_setup eq_refl) as [Hno_fr Hfr'].
  destruct (Hel tt bare_setup eq_refl) as [Hno_el Hel'].
  destruct (Hfr' [] bare_hamiltonian Hrun) as (_ & Hshift & Hnp & _).
  destruct (Hel' [] bare_hamiltonian Hrun) as (_ & Hnso).
  repeat split; assumption.
Defined.


Lemma out_of_range_index_reaches_elimination_witness :
  exists rest,
    fst (cell_hamiltonian (counting_library None) tt
           setup_freeze1_remove0 []) =
    [] ++ [Called (call_FermionicOperator (L:=counting_library None) 12 12)
             None;
           Called (call_fermion_mode_freezing (L:=counting_library None)
                     12 [1; 7]) None;
           Called (call_fermion_mode_elimination (L:=counting_library None)
                     10 [-1; 4]) None] ++ rest.
Proof.
  exact (proj1 (proj2 (proj2
           (out_of_range_index_reaches_elimination (counting_library None) tt
              setup_freeze1_remove0 [] 12 10 (dyadic (-15) (-1))
              eq_refl eq_refl eq_refl eq_refl eq_refl)))).
Defined.


Lemma normalization_deterministic_witness :
  snd (cell_hamiltonian (counting_library None) tt lih_setup []) =
    Ok lih_hamiltonian /\
  snd (cell_hamiltonian (counting_library None) tt lih_setup
         [Printed "{}" (VInt 0)]) = Ok lih_hamiltonian /\
  freeze_list lih_hamiltonian = [0; 6] /\
  remove_list lih_hamiltonian = [2; 3; 7; 8].
Proof.
  assert (H1 : snd (cell_hamiltonian (counting_library None) tt lih_setup [])
               = Ok lih_hamiltonian) by reflexivity.
  assert (H2 : snd (cell_hamiltonian (counting_library None) tt lih_setup
                      [Printed "{}" (VInt 0)]) = Ok lih_hamiltonian)
    by reflexivity.
  split; [exact H1|]. split; [exact H2|].
  exact (proj2 (proj2 (proj2 normalization_deterministic
                         (counting_library None) (counting_library None)
                         tt tt lih_setup lih_setup
                         [] [Printed "{}" (VInt 0)]
                         lih_hamiltonian lih_hamiltonian
                         eq_refl eq_refl eq_refl eq_refl eq_refl eq_refl
                         H1 H2))).
Defined.

Lemma library_errors_propagate_witness :
  snd (notebook (counting_library (Some KeyError)) notebook_config []) =
    Raise KeyError.
Proof.
  exact (proj2 (library_errors_propagate
                  (counting_library (Some KeyError)) notebook_config
                  (removelast
                     (fst (notebook (counting_library (Some KeyError))
                             notebook_config [])))
                  (call_fermion_mode_elimination
                     (L:=counting_library (Some KeyError)) 10 [2; 3; 7; 8])
                  KeyError [] eq_refl)).
Defined.

(** ** More on index normalization *)

Section IndexFacts.

Lemma normalize_index_lists_zero (fl rl : list Z) :
  normalize_index_lists 0 fl rl =
  match rl, fl with
  | [], [] => Ok ([], [])
  | _, _ => Raise ZeroDivisionError
  end.
Proof.
  unfold normalize_index_lists. rewrite !comprehension_mod_zero.
  destruct rl; [destruct fl|]; reflexivity.
Qed.

(** X1: normalization raises exactly when [num_orbitals] is zero and there is
    something to normalize, and it never raises anything but
    [ZeroDivisionError]. *)
Theorem normalize_raises_iff (n : Z) (fl rl : list Z) :
  (normalize_index_lists n fl rl = Raise ZeroDivisionError <->
   n = 0 /\ (fl <> [] \/ rl <> [])) /\
  (forall e, normalize_index_lists n fl rl = Raise e ->
             e = ZeroDivisionError) /\
  (n <> 0 \/ (fl = [] /\ rl = []) ->
   normalize_index_lists n fl rl =
   Ok (mirrored_freeze n fl, mirrored_remove n fl rl)).
Proof.
  destruct (Z.eq_dec n 0) as [-> | Hn].
  - rewrite normalize_index_lists_zero.
    destruct rl as [|y rl]; [destruct fl as [|x fl]|].
    + split; [|split].
      * split; [discriminate|]. intros [_ [H | H]]; congruence.
      * discriminate.
      * reflexivity.
    + split; [|split].
      * split; [|reflexivity]. intros _.
        split; [reflexivity | left; discriminate].
      * intros e H. now injection H as <-.
      * intros [H | [H _]]; [congruence | discriminate].
    + split; [|split].
      * split; [|reflexivity]. intros _.
        split; [reflexivity | right; discriminate].
      * intros e H. now injection H as <-.
      * intros [H | [_ H]]; [congruence | discriminate].
  - rewrite normalize_index_lists_nonzero by assumption.
    split; [|split].
    + split; [discriminate | intros [H _]; contradiction].
    + discriminate.
    + reflexivity.
Qed.

(** X2: the final lists depend on the raw indices only through their residues
    modulo [num_orbitals]: two spellings of the same orbitals, end-relative
    or not, give the same lists. *)
Theorem normalize_residues (n : Z) (fl fl' rl rl' : list Z) :
  n <> 0 ->
  map (fun x => x mod n) fl = map (fun x => x mod n) fl' ->
  map (fun x => x mod n) rl = map (fun x => x mod n) rl' ->
  normalize_index_lists n fl rl = normalize_index_lists n fl' rl'.
Proof.
  intros Hn Hf Hr.
  rewrite !normalize_index_lists_nonzero by assumption.
  assert (Hlen : len fl = len fl').
  { rewrite <- (len_map (fun x => x mod n) fl), Hf. apply len_map. }
  rewrite !mirrored_freeze_residues, !mirrored_remove_residues.
  now rewrite Hf, Hr, Hlen.
Qed.

Lemma normalize_residues_witness :
  normalize_index_lists 6 [0] [-3; -2] = normalize_index_lists 6 [-6] [3; 4].
Proof.
  apply normalize_residues; [lia | reflexivity | reflexivity].
Defined.

Lemma NoDup_map_shift (d : Z) (l : list Z) :
  NoDup l -> NoDup (map (fun a => a + d) l).
Proof.
  induction 1 as [|a l Hnotin Hnd IH]; cbn; constructor.
  - intros Hin. apply in_map_iff in Hin as (b & Hb & Hin).
    assert (b = a) by lia. now subst b.
  - exact IH.
Qed.

Lemma NoDup_sectors (lo mid d : Z) (l : list Z) :
  NoDup l -> Forall (fun a => lo <= a < mid) l -> mid <= lo + d ->
  NoDup (l ++ map (fun a => a + d) l).
Proof.
  intros Hnd Hrange Hd. apply NoDup_app.
  - assumption.
  - now apply NoDup_map_shift.
  - intros a Ha Hb. apply in_map_iff in Hb as (b & Hb & Hin).
    rewrite Forall_forall in Hrange.
    pose proof (Hrange a Ha). pose proof (Hrange b Hin). cbv beta in *. lia.
Qed.

(** X3: distinct orbitals give distinct modes: when the raw indices are within
    [[-n, n)] and name pairwise different orbitals, the final freeze list
    has no repeated index, and neither has the final remove list when every
    removed orbital is at least [len fl]. *)
Theorem normalized_lists_nodup (n : Z) (fl rl : list Z) :
  raw_in_range n fl -> raw_in_range n rl ->
  NoDup (map (fun x => x mod n) fl) ->
  NoDup (map (fun x => x mod n) rl) ->
  exists F R,
    normalize_index_lists n fl rl = Ok (F, R) /\
    NoDup F /\
    (Forall (fun x => len fl <= x mod n) rl -> NoDup R).
Proof.
  intros Hf Hr Hdf Hdr.
  exists (mirrored_freeze n fl), (mirrored_remove n fl rl).
  split; [now apply raw_in_range_normalizes|].
  pose proof (raw_in_range_mod n fl Hf) as Hfm.
  pose proof (raw_in_range_mod n rl Hr) as Hrm.
  split.
  - rewrite mirrored_freeze_residues.
    apply (NoDup_sectors 0 n n); [assumption | | lia].
    now apply Forall_map.
  - intros Hge. unfold mirrored_remove.
    replace (map (fun x => x mod n - len fl + n - len fl) rl)
      with (map (fun a => a + (n - len fl))
                (map (fun x => x mod n - len fl) rl)).
    + apply (NoDup_sectors 0 (n - len fl) (n - len fl)); [| | lia].
      * replace (map (fun x => x mod n - len fl) rl)
          with (map (fun a => a + (- len fl)) (map (fun x => x mod n) rl)).
        -- now apply NoDup_map_shift.
        -- rewrite map_map. apply map_ext. intros a. lia.
      * apply Forall_map. rewrite Forall_forall in *. intros x Hx.
        specialize (Hrm x Hx). specialize (Hge x Hx). cbv beta in *. lia.
    + rewrite map_map. apply map_ext. intros a. lia.
Qed.

Lemma normalized_lists_nodup_witness :
  exists F R,
    normalize_index_lists 6 [0] [-3; -2] = Ok (F, R) /\
    NoDup F /\
    (Forall (fun x => len [0] <= x mod 6) [-3; -2] -> NoDup R).
Proof.
  apply normalized_lists_nodup.
  - repeat constructor; lia.
  - repeat constructor; lia.
  - repeat constructor. intros [].
  - cbn. repeat constructor; cbn; intuition lia.
Defined.

Lemma normalize_raises_iff_witness :
  normalize_index_lists 0 [0] [] = Raise ZeroDivisionError /\
  normalize_index_lists 0 [] [] = Ok ([], []).
Proof.
  split.
  - apply (proj1 (normalize_raises_iff 0 [0] [])).
    split; [reflexivity | left; discriminate].
  - apply (proj2 (proj2 (normalize_raises_iff 0 [] []))).
    right. split; reflexivity.
Defined.

Lemma count_below_app (l1 l2 : list Z) (a : Z) :
  count_below (l1 ++ l2) a = count_below l1 a + count_below l2 a.
Proof. unfold count_below. now rewrite filter_app, len_app. Qed.

Lemma count_below_all (l : list Z) (a : Z) :
  Forall (fun f => f < a) l -> count_below l a = len l.
Proof.
  unfold count_below. induction 1 as [|f l Hf _ IH]; [reflexivity|].
  cbn [filter]. destruct (Z.ltb_spec f a); [|lia].
  unfold len in *. cbn [List.length]. lia.
Qed.

Lemma count_below_none (l : list Z) (a : Z) :
  Forall (fun f => a <= f) l -> count_below l a = 0.
Proof.
  unfold count_below. induction 1 as [|f l Hf _ IH]; [reflexivity|].
  cbn [filter]. destruct (Z.ltb_spec f a); [lia | exact IH].
Qed.

Lemma count_below_shift (l : list Z) (a d : Z) :
  count_below (map (fun f => f + d) l) (a + d) = count_below l a.
Proof.
  unfold count_below. induction l as [|f l IH]; [reflexivity|].
  cbn [map filter].
  replace (f + d <? a + d) with (f <? a)
    by (destruct (Z.ltb_spec f a), (Z.ltb_spec (f + d) (a + d)); lia).
  destruct (f <? a); [|exact IH].
  unfold len in *. cbn [List.length]. lia.
Qed.

Lemma position_after_removal_count (l : list Z) (a : Z) :
  NoDup l -> Forall (fun f => 0 <= f) l ->
  position_after_removal l a = a - count_below l a.
Proof.
  intros Hnd Hpos. unfold position_after_removal, count_below.
  rewrite (nodup_fixed_point Z.eq_dec Hnd). do 2 f_equal.
  apply filter_ext_in. intros f Hf.
  rewrite Forall_forall in Hpos. specialize (Hpos f Hf).
  destruct (Z.leb_spec 0 f); [reflexivity | lia].
Qed.

(** X4: when the frozen orbitals are pairwise distinct and every one of
    them lies below every removed orbital, each index of the final remove
    list is the post-freeze number of the removed spin orbital (orbital
    [y mod n] in the alpha sector, [y mod n + n] in the beta sector): its
    position among the modes left once the modes of the final freeze list
    are taken out. *)
Theorem remove_indices_skip_frozen_modes (n : Z) (fl rl : list Z) :
  raw_in_range n fl -> raw_in_range n rl ->
  NoDup (map (fun x => x mod n) fl) ->
  (forall x y, In x fl -> In y rl -> x mod n < y mod n) ->
  exists F R,
    normalize_index_lists n fl rl = Ok (F, R) /\
    R = map (fun y => position_after_removal F (y mod n)) rl ++
        map (fun y => position_after_removal F (y mod n + n)) rl.
Proof.
  intros Hf Hr Hnd Hlt.
  exists (mirrored_freeze n fl), (mirrored_remove n fl rl).
  split; [now apply raw_in_range_normalizes|].
  pose proof (raw_in_range_mod n fl Hf) as Hfm.
  pose proof (raw_in_range_mod n rl Hr) as Hrm.
  assert (HFnd : NoDup (mirrored_freeze n fl)).
  { rewrite mirrored_freeze_residues.
    apply (NoDup_sectors 0 n n); [assumption | | lia].
    now apply Forall_map. }
  assert (HFpos : Forall (fun f => 0 <= f) (mirrored_freeze n fl)).
  { unfold mirrored_freeze. apply Forall_app.
    split; apply Forall_map; (eapply Forall_impl; [|exact Hfm]);
      cbv beta; lia. }
  rewrite Forall_forall in Hfm, Hrm.
  set (A := map (fun x => x mod n) fl).
  assert (HA : len A = len fl) by apply len_map.
  assert (Hcount : forall y, In y rl ->
             count_below (mirrored_freeze n fl) (y mod n) = len fl /\
             count_below (mirrored_freeze n fl) (y mod n + n) = 2 * len fl).
  { intros y Hy. rewrite mirrored_freeze_residues. fold A.
    rewrite !count_below_app, count_below_shift.
    assert (Hbelow : Forall (fun f => f < y mod n) A).
    { apply Forall_map, Forall_forall. intros x Hx. now apply Hlt. }
    rewrite (count_below_all A (y mod n) Hbelow).
    rewrite (count_below_all A (y mod n + n)).
    - rewrite (count_below_none (map (fun a => a + n) A) (y mod n)); [lia|].
      apply Forall_map, Forall_map, Forall_forall. intros x Hx.
      specialize (Hfm x Hx). specialize (Hrm y Hy). cbv beta in *. lia.
    - apply Forall_map, Forall_forall. intros x Hx.
      specialize (Hfm x Hx). specialize (Hrm y Hy). cbv beta in *. lia. }
  unfold mirrored_remove. f_equal; apply map_ext_in; intros y Hy;
    rewrite (position_after_removal_count _ _ HFnd HFpos);
    destruct (Hcount y Hy) as [H1 H2]; rewrite ?H1, ?H2; lia.
Qed.

Lemma remove_indices_skip_frozen_modes_witness :
  exists F R,
    normalize_index_lists 6 [0] [-3; -2] = Ok (F, R) /\
    R = map (fun y => position_after_removal F (y mod 6)) [-3; -2] ++
        map (fun y => position_after_removal F (y mod 6 + 6)) [-3; -2].
Proof.
  apply remove_indices_skip_frozen_modes.
  - repeat constructor; lia.
  - repeat constructor; lia.
  - repeat constructor. intros [].
  - intros x y [<- | []] [<- | [<- | []]]; reflexivity.
Defined.

End IndexFacts.

(** ** The order of library calls *)

Section CallOrder.

Context {L : Qiskit}.

Implicit Types t : Trace L.

Lemma sites_app t1 t2 : sites (t1 ++ t2) = sites t1 ++ sites t2.
Proof. apply flat_map_app. Qed.

Lemma formats_app t1 t2 : formats (t1 ++ t2) = formats t1 ++ formats t2.
Proof. apply flat_map_app. Qed.

Lemma StronglySorted_app (l1 l2 : list nat) :
  StronglySorted lt l1 -> StronglySorted lt l2 ->
  (forall a b, In a l1 -> In b l2 -> (a < b)%nat) ->
  StronglySorted lt (l1 ++ l2).
Proof.
  induction 1 as [|a l1 Hs IH Ha]; intros H2 Hlt; cbn; [assumption|].
  constructor.
  - apply IH; [assumption|]. intros x y Hx Hy. apply Hlt; [now right | assumption].
  - apply Forall_app. split; [assumption|].
    apply Forall_forall. intros b Hb. apply Hlt; [now left | assumption].
Qed.

Lemma ordered_ret {A : Type} lo hi (a : A) : ordered (L:=L) lo hi (ret a).
Proof.
  intros t. exists []. cbn. rewrite app_nil_r.
  repeat split; constructor.
Qed.

Lemma ordered_lift {A : Type} lo hi (r : result A) :
  ordered (L:=L) lo hi (lift r).
Proof.
  intros t. exists []. cbn. rewrite app_nil_r.
  repeat split; constructor.
Qed.

Lemma ordered_print lo hi fmt arg : ordered (L:=L) lo hi (print fmt arg).
Proof.
  intros t. exists [Printed fmt arg]. cbn.
  repeat split; constructor.
Qed.

Lemma ordered_lib {A : Type} lo hi (c : LibCall L) (r : result A) :
  (lo <= call_site c < hi)%nat -> ordered lo hi (lib c r).
Proof.
  intros Hc t. exists [Called c (raised_by r)]. cbn.
  repeat split; repeat constructor; lia.
Qed.

Lemma ordered_bind {A B : Type} lo mid hi (m : M L A) (f : A -> M L B) :
  ordered lo mid m -> (forall a, ordered mid hi (f a)) ->
  (lo <= mid <= hi)%nat ->
  ordered lo hi (bind m f).
Proof.
  intros Hm Hf Hb t. destruct (Hm t) as (r1 & E1 & S1 & F1).
  unfold bind. destruct (m t) as [t1 [e | a]]; cbn in *.
  - exists r1. repeat split; [assumption | assumption |].
    eapply Forall_impl; [|exact F1]. cbv beta. lia.
  - destruct (Hf a t1) as (r2 & E2 & S2 & F2). exists (r1 ++ r2).
    rewrite E2, E1, app_assoc, sites_app.
    rewrite Forall_forall in F1, F2.
    repeat split.
    + apply StronglySorted_app; [assumption | assumption |].
      intros x y Hx Hy. specialize (F1 x Hx). specialize (F2 y Hy).
      cbv beta in *. lia.
    + apply Forall_app. split; apply Forall_forall; intros x Hx.
      * specialize (F1 x Hx). cbv beta in *. lia.
      * specialize (F2 x Hx). cbv beta in *. lia.
Qed.

Lemma ordered_if {A : Type} lo hi (b : bool) (m1 m2 : M L A) :
  ordered lo hi m1 -> ordered lo hi m2 ->
  ordered lo hi (if b then m1 else m2).
Proof. now destruct b. Qed.

End CallOrder.

Ltac unfold_calls :=
  unfold do_PySCFDriver, do_driver_run, do_FermionicOperator,
    do_fermion_mode_freezing, do_fermion_mode_elimination, do_mapping,
    do_two_qubit_reduction, do_chop, do_print_details,
    do_NumPyMinimumEigensolver, do_exact_run, do_get_backend, do_COBYLA,
    do_HartreeFock, do_UCCSD, do_VQE, do_QuantumInstance, do_vqe_run.

Ltac ordered_step :=
  match goal with
  | |- ordered ?lo ?hi (bind (lib ?c _) _) =>
      let mid := eval cbn in (S (call_site c)) in
      apply (ordered_bind lo mid hi);
      [apply ordered_lib; cbn; lia | intros | lia]
  | |- ordered ?lo ?hi (bind (print _ _) _) =>
      apply (ordered_bind lo lo hi); [apply ordered_print | intros | lia]
  | |- ordered ?lo ?hi (bind (lift _) _) =>
      apply (ordered_bind lo lo hi); [apply ordered_lift | intros | lia]
  | |- ordered _ _ (ret _) => apply ordered_ret
  | |- ordered _ _ (lib _ _) => apply ordered_lib; cbn; lia
  end.

Section NotebookOrder.

Context (L : Qiskit).

Lemma cell_molecule_ordered : ordered 0 2 (cell_molecule L).
Proof. unfold cell_molecule. unfold_calls. repeat ordered_step. Qed.

Lemma cell_setup_ordered cfg molecule :
  ordered 2 2 (cell_setup L cfg molecule).
Proof. unfold cell_setup. cbv zeta. repeat ordered_step. Qed.

Lemma freezing_stage_ordered fl s : ordered 3 4 (freezing_stage L fl s).
Proof.
  unfold freezing_stage. unfold_calls.
  apply ordered_if; repeat ordered_step.
Qed.

Lemma elimination_stage_ordered rl s :
  ordered 4 5 (elimination_stage L rl s).
Proof.
  unfold elimination_stage. unfold_calls.
  apply ordered_if; repeat ordered_step.
Qed.

Lemma mapping_stage_ordered mt qr s : ordered 5 8 (mapping_stage L mt qr s).
Proof.
  unfold mapping_stage. unfold_calls. ordered_step.
  apply (ordered_bind 6 7 8); [|intros; ordered_step|lia].
  apply ordered_if; ordered_step.
Qed.

Lemma cell_hamiltonian_ordered molecule v :
  ordered 2 9 (cell_hamiltonian L molecule v).
Proof.
  unfold cell_hamiltonian. unfold_calls. ordered_step. cbv zeta.
  ordered_step.
  apply (ordered_bind 3 4 9); [apply freezing_stage_ordered|intros|lia].
  apply (ordered_bind 4 5 9); [apply elimination_stage_ordered|intros|lia].
  apply (ordered_bind 5 8 9); [apply mapping_stage_ordered|intros|lia].
  repeat ordered_step.
Qed.

Lemma cell_exact_ordered v h : ordered 9 11 (cell_exact L v h).
Proof. unfold cell_exact. unfold_calls. repeat ordered_step. Qed.

Lemma cell_backend_ordered : ordered 11 12 (cell_backend L).
Proof. unfold cell_backend. unfold_calls. ordered_step. Qed.

Lemma cell_vqe_setup_ordered v h backend :
  ordered 12 17 (cell_vqe_setup L v h backend).
Proof.
  unfold cell_vqe_setup. unfold_calls. cbv zeta. repeat ordered_step.
Qed.

Lemma cell_vqe_run_ordered v h vqe qi :
  ordered 17 18 (cell_vqe_run L v h vqe qi).
Proof. unfold cell_vqe_run. unfold_calls. repeat ordered_step. Qed.

Lemma after_hamiltonian_ordered v h : ordered 9 18 (after_hamiltonian L v h).
Proof.
  unfold after_hamiltonian.
  apply (ordered_bind 9 11 18); [apply cell_exact_ordered|intros|lia].
  apply (ordered_bind 11 12 18); [apply cell_backend_ordered|intros|lia].
  apply (ordered_bind 12 17 18); [apply cell_vqe_setup_ordered|intros|lia].
  apply (ordered_bind 17 18 18); [apply cell_vqe_run_ordered|intros|lia].
  apply ordered_ret.
Qed.

Lemma notebook_cells cfg :
  notebook L cfg =
  bind (cell_molecule L) (fun molecule =>
  bind (cell_setup L cfg molecule) (fun v =>
  bind (cell_hamiltonian L molecule v) (fun h =>
  after_hamiltonian L v h))).
Proof. reflexivity. Qed.

(** X6: in every run of the notebook, complete or cut short by an exception,
    the library operations are called in the order of the notebook's text
    and none is called twice: nothing is retried and nothing runs out of
    turn. *)
Theorem calls_in_notebook_order cfg :
  StronglySorted lt (sites (fst (notebook L cfg []))) /\
  NoDup (sites (fst (notebook L cfg []))).
Proof.
  assert (H : ordered 0 18 (notebook L cfg)).
  { rewrite notebook_cells.
    apply (ordered_bind 0 2 18); [apply cell_molecule_ordered|intros|lia].
    apply (ordered_bind 2 2 18); [apply cell_setup_ordered|intros|lia].
    apply (ordered_bind 2 9 18); [apply cell_hamiltonian_ordered|intros|lia].
    apply after_hamiltonian_ordered. }
  destruct (H []) as (rest & E & Hs & _). rewrite E. cbn [app].
  split; [assumption|].
  clear E. induction Hs as [|a l _ IH Ha]; constructor; [|assumption].
  intros Hin. rewrite Forall_forall in Ha. specialize (Ha a Hin). lia.
Qed.

End NotebookOrder.

(** ** Where exceptions come from, and what a complete run prints *)

Section RaisesAndPrints.

Context {L : Qiskit}.

Implicit Types t : Trace L.

Lemma lib_raises_ret {A : Type} (a : A) : lib_raises (L:=L) (ret a).
Proof. intros t e H. discriminate. Qed.

Lemma lib_raises_print fmt arg : lib_raises (L:=L) (print fmt arg).
Proof. intros t e H. discriminate. Qed.

Lemma lib_raises_lib {A : Type} (c : LibCall L) (r : result A) :
  lib_raises (lib c r).
Proof.
  intros t e H. cbn in H. subst r. cbn. now exists t, c.
Qed.

Lemma lib_raises_bind {A B : Type} (m : M L A) (f : A -> M L B) :
  lib_raises m -> (forall a, lib_raises (f a)) -> lib_raises (bind m f).
Proof.
  intros Hm Hf t e. specialize (Hm t). unfold bind.
  destruct (m t) as [t1 [e1 | a]].
  - cbn. intros H. injection H as <-. now apply Hm.
  - apply Hf.
Qed.

Lemma lib_raises_if {A : Type} (b : bool) (m1 m2 : M L A) :
  lib_raises m1 -> lib_raises m2 -> lib_raises (if b then m1 else m2).
Proof. now destruct b. Qed.

Lemma prints_ret {A : Type} (a : A) : prints (L:=L) [] (ret a).
Proof. intros t t' x H. injection H as <- _. now rewrite app_nil_r. Qed.

Lemma prints_lift {A : Type} (r : result A) : prints (L:=L) [] (lift r).
Proof. intros t t' x H. injection H as <- _. now rewrite app_nil_r. Qed.

Lemma prints_lib {A : Type} (c : LibCall L) (r : result A) :
  prints [] (lib c r).
Proof.
  intros t t' x H. injection H as <- _.
  rewrite formats_app. reflexivity.
Qed.

Lemma prints_print fmt arg : prints (L:=L) [fmt] (print fmt arg).
Proof.
  intros t t' x H. injection H as <- _.
  rewrite formats_app. reflexivity.
Qed.

Lemma prints_bind {A B : Type} l1 l2 (m : M L A) (f : A -> M L B) :
  prints l1 m -> (forall a, prints l2 (f a)) -> prints (l1 ++ l2) (bind m f).
Proof.
  intros Hm Hf t t' b H.
  apply bind_Ok in H as (t1 & a & H1 & H2).
  rewrite (Hf a _ _ _ H2), (Hm _ _ _ H1). now rewrite app_assoc.
Qed.

Lemma prints_if {A : Type} l (b : bool) (m1 m2 : M L A) :
  prints l m1 -> prints l m2 -> prints l (if b then m1 else m2).
Proof. now destruct b. Qed.

Lemma prints_eq {A : Type} l l' (m : M L A) :
  prints l m -> l = l' -> prints l' m.
Proof. now intros H <-. Qed.

End RaisesAndPrints.

Ltac lib_raises_structure :=
  unfold_calls; cbv zeta;
  repeat first
    [ apply lib_raises_bind; [|intros ?]
    | apply lib_raises_if | apply lib_raises_lib
    | apply lib_raises_print | apply lib_raises_ret ].

Ltac prints_structure :=
  unfold_cells; cbv zeta;
  repeat first
    [ eapply prints_bind; [|intros ?]
    | apply prints_if | apply prints_lib | apply prints_print
    | apply prints_ret | apply prints_lift ].

Section NotebookRaisesAndPrints.

Context (L : Qiskit).

Lemma cell_molecule_Ok t t1 mol :
  cell_molecule L t = (t1, Ok mol) ->
  exists d,
    PySCFDriver L "Li .0 .0 .0; H .0 .0 1.6" ANGSTROM 0 0 "sto3g" = Ok d /\
    driver_run L d = Ok mol /\
    t1 = t ++ [Called (call_PySCFDriver "Li .0 .0 .0; H .0 .0 1.6"
                         ANGSTROM 0 0 "sto3g") None;
               Called (call_driver_run d) None].
Proof.
  unfold cell_molecule. intros H.
  apply bind_Ok in H as (t0 & d & Hd & H).
  unfold do_PySCFDriver, lib in Hd. injection Hd as <- Hd.
  unfold do_driver_run, lib in H. injection H as <- H.
  exists d. rewrite Hd, H. cbn [raised_by Ok].
  rewrite <- app_assoc. repeat split.
Qed.

Lemma cell_hamiltonian_lib_raises molecule (v : Setup L) lists :
  normalize_index_lists (num_orbitals L molecule)
    (raw_freeze_list v) (raw_remove_list v) = Ok lists ->
  lib_raises (cell_hamiltonian L molecule v).
Proof.
  intros Hn t e. unfold cell_hamiltonian.
  unfold bind at 1. unfold lift. rewrite Hn. unfold Ok at 1.
  cbv beta iota zeta. revert t e.
  match goal with
  | |- forall t e, snd (?k t) = Raise e -> _ => change (lib_raises k)
  end.
  unfold freezing_stage, elimination_stage, mapping_stage.
  lib_raises_structure.
Qed.

Lemma after_hamiltonian_lib_raises v h :
  lib_raises (after_hamiltonian L v h).
Proof.
  unfold after_hamiltonian, cell_exact, cell_backend, cell_vqe_setup,
    cell_vqe_run.
  lib_raises_structure.
Qed.

(** X5: a run of the notebook that raises does so for one of two reasons:
    a library call raised, and that call is the last event of the run; or
    the driver reported zero orbitals while there was something to freeze
    or remove, and the index normalization raised [ZeroDivisionError]
    before any operator was built. *)
Theorem notebook_raises_cases cfg e :
  snd (notebook L cfg []) = Raise e ->
  (exists pre c, fst (notebook L cfg []) = pre ++ [Called c (Some e)]) \/
  (e = ZeroDivisionError /\
   (cfg_freeze_list cfg <> [] \/ cfg_remove_list cfg <> []) /\
   exists d mol,
     PySCFDriver L "Li .0 .0 .0; H .0 .0 1.6" ANGSTROM 0 0 "sto3g" = Ok d /\
     driver_run L d = Ok mol /\
     num_orbitals L mol = 0 /\
     sites (fst (notebook L cfg [])) = [0; 1]%nat).
Proof.
  rewrite notebook_cells.
  destruct (cell_molecule L []) as [t1 [e1 | mol]] eqn:E1.
  - rewrite (bind_raise _ _ _ _ _ E1). cbn [fst snd]. intros H.
    left. injection H as ->.
    assert (Hr : lib_raises (cell_molecule L)).
    { unfold cell_molecule. lib_raises_structure. }
    specialize (Hr [] e). rewrite E1 in Hr. now apply Hr.
  - rewrite (bind_run _ _ _ _ _ E1).
    apply cell_molecule_Ok in E1 as (d & Hd & Hmol & ->).
    match goal with
    | |- snd (bind ?m ?f ?t) = _ -> _ =>
        assert (Hv : exists t2 v, m t = (t2, Ok v) /\
                       sites t2 = [0; 1]%nat /\
                       raw_freeze_list v = cfg_freeze_list cfg /\
                       raw_remove_list v = cfg_remove_list cfg)
    end.
    { eexists. eexists. split; [reflexivity|]. repeat split. }
    destruct Hv as (t2 & v & Ev & Hsites & Hfl & Hrl).
    rewrite (bind_run _ _ _ _ _ Ev).
    destruct (normalize_index_lists (num_orbitals L mol)
                (raw_freeze_list v) (raw_remove_list v))
      as [e0 | lists] eqn:Hn.
    + rewrite (bind_raise _ _ t2 t2 e0)
        by (unfold cell_hamiltonian, bind, lift; now rewrite Hn).
      cbn [fst snd]. intros H. injection H as <-. right.
      rewrite Hfl, Hrl in Hn.
      pose proof (proj1 (proj2 (normalize_raises_iff _ _ _)) _ Hn) as ->.
      apply (proj1 (normalize_raises_iff _ _ _)) in Hn as [Hz Hne].
      split; [reflexivity|]. split; [assumption|].
      exists d, mol. repeat split; assumption.
    + intros H. left.
      assert (Hr : lib_raises
                (bind (cell_hamiltonian L mol v)
                   (fun h => after_hamiltonian L v h))).
      { apply lib_raises_bind.
        - now apply (cell_hamiltonian_lib_raises mol v lists).
        - intros h. apply after_hamiltonian_lib_raises. }
      now apply Hr.
Qed.

(** X10: a run of the notebook that completes has made exactly ten
    [print] calls, in this order: three for the molecule, the two listings
    of the qubit operator, two energies for the exact solver, and two
    energies and the parameters for VQE. *)
Theorem complete_run_prints cfg out :
  snd (notebook L cfg []) = Ok out ->
  formats (fst (notebook L cfg [])) =
  ["HF energy: {}"; "# of electrons: {}"; "# of spin orbitals: {}";
   "{}"; "{}";
   "The computed energy is: {:.12f}";
   "The total ground state energy is: {:.12f}";
   "The computed ground state energy is: {:.12f}";
   "The total ground state energy is: {:.12f}";
   "Parameters: {}"]%string.
Proof.
  intros H.
  assert (Hp : prints
                 ["HF energy: {}"; "# of electrons: {}";
                  "# of spin orbitals: {}"; "{}"; "{}";
                  "The computed energy is: {:.12f}";
                  "The total ground state energy is: {:.12f}";
                  "The computed ground state energy is: {:.12f}";
                  "The total ground state energy is: {:.12f}";
                  "Parameters: {}"]%string (notebook L cfg)).
  { eapply prints_eq; [prints_structure | reflexivity]. }
  destruct (notebook L cfg []) as [t r] eqn:E. cbn in H. subst r.
  exact (Hp _ _ _ E).
Qed.

End NotebookRaisesAndPrints.

(** ** What flows from the reduction into the solvers *)

Ltac adds_structure leaf :=
  unfold_cells; cbv zeta;
  repeat first
    [ progress intros
    | apply adds_bind | apply adds_if | apply adds_ret | apply adds_lift
    | apply adds_print; leaf
    | apply adds_lib; intros; leaf ].

Section DataFlow.

Context (L : Qiskit).

Implicit Types (t : Trace L) (s : Reduction L).

Lemma adds_Forall {A : Type} (P : Event L -> Prop) (m : M L A) t :
  adds P m -> Forall P t -> Forall P (fst (m t)).
Proof.
  intros Hm Ht. destruct (Hm t) as (rest & -> & Hrest).
  apply Forall_app. now split.
Qed.

Lemma freezing_stage_Ok fl s t t1 s1 :
  freezing_stage L fl s t = (t1, Ok s1) ->
  match fl with
  | [] => s1 = s
  | _ :: _ =>
      fermion_mode_freezing L (ferOp s) fl = Ok (ferOp s1, energy_shift s1)
  end.
Proof.
  destruct fl as [|x fl].
  - rewrite freezing_stage_nil. intros H. now injection H as _ <-.
  - rewrite freezing_stage_run by discriminate.
    destruct (fermion_mode_freezing L (ferOp s) (x :: fl)) as [e | [op sh]];
      [discriminate|].
    intros H. now injection H as _ <-.
Qed.

Lemma elimination_stage_Ok rl s t t1 s1 :
  elimination_stage L rl s t = (t1, Ok s1) ->
  match rl with
  | [] => s1 = s
  | _ :: _ => fermion_mode_elimination L (ferOp s) rl = Ok (ferOp s1)
  end.
Proof.
  destruct rl as [|x rl].
  - rewrite elimination_stage_nil. intros H. now injection H as _ <-.
  - rewrite elimination_stage_run by discriminate.
    destruct (fermion_mode_elimination L (ferOp s) (x :: rl)) as [e | op];
      [discriminate|].
    intros H. now injection H as _ <-.
Qed.

Lemma mapping_stage_Ok mt qr s t t1 q :
  mapping_stage L mt qr s t = (t1, Ok q) ->
  exists q0 q1,
    mapping L (ferOp s) mt mapping_threshold = Ok q0 /\
    (if qr then two_qubit_reduction L q0 (num_particles s) = Ok q1
     else q1 = q0) /\
    chop L q1 chop_threshold = Ok q.
Proof.
  unfold mapping_stage. intros H.
  apply bind_Ok in H as (t0 & q0 & H0 & H).
  apply bind_Ok in H as (t2 & q1 & H1 & H).
  unfold do_mapping, lib in H0. injection H0 as _ H0.
  unfold do_chop, lib in H. injection H as _ H.
  exists q0, q1. split; [assumption|]. split; [|assumption].
  destruct qr.
  - unfold do_two_qubit_reduction, lib in H1. now injection H1 as _ H1.
  - unfold ret in H1. now injection H1 as _ <-.
Qed.

(** X8: how the operations compose in a run of the reduction cell that
    returns: the operator built from the integrals is frozen (unless the
    freeze list is empty, and then [energy_shift] is [0.0]), the result is
    reduced by elimination (unless the remove list is empty), the result
    of that is mapped, the mapped operator goes through
    [two_qubit_reduction] with the particle count left by freezing exactly
    when [qubit_reduction] is set, and what comes out is chopped into
    [qubitOp]. *)
Theorem reduction_dataflow molecule v t h :
  snd (cell_hamiltonian L molecule v t) = Ok h ->
  exists op0 op1 q0 q1,
    FermionicOperator L (h1 v) (h2 v) = Ok op0 /\
    match freeze_list h with
    | [] => op1 = op0 /\ energy_shift (reduced h) = float_zero
    | _ :: _ =>
        fermion_mode_freezing L op0 (freeze_list h) =
        Ok (op1, energy_shift (reduced h))
    end /\
    match remove_list h with
    | [] => ferOp (reduced h) = op1
    | _ :: _ =>
        fermion_mode_elimination L op1 (remove_list h) =
        Ok (ferOp (reduced h))
    end /\
    mapping L (ferOp (reduced h)) (map_type v) mapping_threshold = Ok q0 /\
    (if qubit_reduction h
     then two_qubit_reduction L q0 (num_particles (reduced h)) = Ok q1
     else q1 = q0) /\
    chop L q1 chop_threshold = Ok (qubitOp h).
Proof.
  intros Hh.
  destruct (cell_hamiltonian L molecule v t) as [t' r] eqn:Hrun.
  cbn in Hh. subst r.
  apply cell_hamiltonian_Ok in Hrun
    as (op0 & s1 & t1 & t2 & _ & Hop & Hfr & Hel & _ & t3 & Hmap).
  apply mapping_stage_Ok in Hmap as (q0 & q1 & Hq0 & Hq1 & Hq).
  pose proof (elimination_stage_counts L _ _ _ _ _ Hel) as (_ & _ & Hshift).
  apply freezing_stage_Ok in Hfr. apply elimination_stage_Ok in Hel.
  exists op0, (ferOp s1), q0, q1.
  split; [assumption|]. split; [|split; [|repeat split; assumption]].
  - destruct (freeze_list h).
    + subst s1. cbn in Hshift. now split.
    + cbn [ferOp] in Hfr. now rewrite Hshift.
  - destruct (remove_list h); [now rewrite Hel | assumption].
Qed.

Lemma before_solvers_inputs (q : QubitOp L) nso np mt (ev : Event L) :
  before_solvers ev -> solver_inputs q nso np mt ev.
Proof.
  destruct ev as [c o | fmt arg]; [|trivial].
  destruct c; cbn; trivial; lia.
Qed.

Lemma solver_ansatz_inputs (q : QubitOp L) nso np mt (ev : Event L) :
  solver_inputs q nso np mt ev -> ansatz_inputs nso np mt ev.
Proof.
  destruct ev as [c o | fmt arg]; [|trivial].
  destruct c; cbn; trivial.
Qed.

Lemma cell_molecule_before : adds before_solvers (cell_molecule L).
Proof. adds_structure ltac:(cbn; first [exact I | lia]). Qed.

Lemma cell_setup_before cfg molecule :
  adds before_solvers (cell_setup L cfg molecule).
Proof. adds_structure ltac:(cbn; first [exact I | lia]). Qed.

Lemma cell_hamiltonian_before molecule v :
  adds before_solvers (cell_hamiltonian L molecule v).
Proof. adds_structure ltac:(cbn; first [exact I | lia]). Qed.

Lemma after_hamiltonian_inputs v h :
  qubit_reduction h = qubit_reduction_of (map_type v) ->
  adds (solver_inputs (qubitOp h) (num_spin_orbitals (reduced h))
          (num_particles (reduced h)) (map_type v))
       (after_hamiltonian L v h).
Proof.
  intros Hq. unfold after_hamiltonian.
  adds_structure ltac:(cbn; auto).
Qed.

(** A run either never reaches the solver cells, or it went through a
    reduction cell that returned [h], and every call of the solver cells
    uses the operator and the counts of [h]. *)
Lemma notebook_trace_cases cfg :
  Forall before_solvers (fst (notebook L cfg [])) \/
  exists d mol v t1 t2 t3 h,
    PySCFDriver L "Li .0 .0 .0; H .0 .0 1.6" ANGSTROM 0 0 "sto3g" = Ok d /\
    driver_run L d = Ok mol /\
    cell_setup L cfg mol t1 = (t2, Ok v) /\
    cell_hamiltonian L mol v t2 = (t3, Ok h) /\
    Forall (solver_inputs (qubitOp h) (num_spin_orbitals (reduced h))
              (num_particles (reduced h)) (map_type v))
           (fst (notebook L cfg [])).
Proof.
  rewrite notebook_cells.
  pose proof (adds_Forall _ _ [] cell_molecule_before (Forall_nil _)) as H1.
  destruct (cell_molecule L []) as [t1 [e1 | mol]] eqn:E1.
  - rewrite (bind_raise _ _ _ _ _ E1). now left.
  - rewrite (bind_run _ _ _ _ _ E1). cbn [fst] in H1.
    apply cell_molecule_Ok in E1 as (d & Hd & Hmol & _).
    pose proof (adds_Forall _ _ t1 (cell_setup_before cfg mol) H1) as H2.
    destruct (cell_setup L cfg mol t1) as [t2 [e2 | v]] eqn:E2.
    + rewrite (bind_raise _ _ _ _ _ E2). now left.
    + rewrite (bind_run _ _ _ _ _ E2). cbn [fst] in H2.
      pose proof (adds_Forall _ _ t2 (cell_hamiltonian_before mol v) H2)
        as H3.
      destruct (cell_hamiltonian L mol v t2) as [t3 [e3 | h]] eqn:E3.
      * rewrite (bind_raise _ _ _ _ _ E3). now left.
      * rewrite (bind_run _ _ _ _ _ E3). cbn [fst] in H3. right.
        exists d, mol, v, t1, t2, t3, h.
        repeat split; try assumption.
        apply adds_Forall.
        -- apply after_hamiltonian_inputs.
           now apply cell_hamiltonian_Ok in E3
             as (_ & _ & _ & _ & _ & _ & _ & _ & Hq & _).
        -- eapply Forall_impl; [|exact H3].
           intros ev. apply before_solvers_inputs.
Qed.

Lemma before_ansatz_inputs nso np mt (ev : Event L) :
  before_solvers ev -> ansatz_inputs nso np mt ev.
Proof.
  destruct ev as [c o | fmt arg]; [|trivial].
  destruct c; cbn; trivial; lia.
Qed.

(** X7: the initial state and the variational form are always built for the
    reduced problem: whenever [HartreeFock] or [UCCSD] is called, it gets
    the spin-orbital count [2 * num_orbitals] less twice the number of
    raw freeze and remove indices, the particle count
    [num_alpha + num_beta] less twice the number of raw freeze indices, the
    configured mapping and the matching reduction flag. *)
Theorem ansatz_gets_reduced_counts cfg d mol :
  PySCFDriver L "Li .0 .0 .0; H .0 .0 1.6" ANGSTROM 0 0 "sto3g" = Ok d ->
  driver_run L d = Ok mol ->
  Forall (ansatz_inputs
            (2 * num_orbitals L mol
             - 2 * (len (cfg_freeze_list cfg) + len (cfg_remove_list cfg)))
            (num_alpha L mol + num_beta L mol
             - 2 * len (cfg_freeze_list cfg))
            (cfg_map_type cfg))
         (fst (notebook L cfg [])).
Proof.
  intros Hd Hmol.
  destruct (notebook_trace_cases cfg)
    as [H | (d' & mol' & v & t1 & t2 & t3 & h & Hd' & Hmol' & Ev & Eh & H)].
  - eapply Forall_impl; [|exact H]. intros ev.
    apply before_ansatz_inputs.
  - rewrite Hd in Hd'. injection Hd' as <-.
    rewrite Hmol in Hmol'. injection Hmol' as <-.
    unfold cell_setup, bind, print, ret in Ev. cbv zeta in Ev.
    injection Ev as _ <-.
    apply cell_hamiltonian_Ok in Eh
      as (op0 & s1 & t4 & t5 & Hn & _ & Hfr & Hel & _).
    apply freezing_stage_counts in Hfr as [Hc1 Hp1].
    apply elimination_stage_counts in Hel as (Hc2 & Hp2 & _).
    apply normalize_index_lists_inv in Hn as [HF HR].
    cbn [raw_freeze_list raw_remove_list num_spin_orbitals num_particles
         num_spin_orbitals0 num_particles0 map_type] in *.
    rewrite HF in Hc1, Hp1. rewrite HR in Hc2.
    rewrite len_mirrored_freeze in Hc1, Hp1.
    rewrite len_mirrored_remove in Hc2.
    eapply Forall_impl; [|exact H]. intros ev Hev.
    apply solver_ansatz_inputs in Hev.
    replace (2 * num_orbitals L mol
             - 2 * (len (cfg_freeze_list cfg) + len (cfg_remove_list cfg)))
      with (num_spin_orbitals (reduced h)) by lia.
    replace (num_alpha L mol + num_beta L mol
             - 2 * len (cfg_freeze_list cfg))
      with (num_particles (reduced h)) by lia.
    exact Hev.
Qed.

(** X9: the exact solver and VQE work on the same qubit operator: whenever
    both are constructed in a run, they are given the same operator. *)
Theorem solvers_share_operator cfg q q' vf opt o o' :
  In (Called (call_NumPyMinimumEigensolver q) o) (fst (notebook L cfg [])) ->
  In (Called (call_VQE q' vf opt) o') (fst (notebook L cfg [])) ->
  q = q'.
Proof.
  intros H1 H2.
  destruct (notebook_trace_cases cfg)
    as [H | (d & mol & v & t1 & t2 & t3 & h & _ & _ & _ & _ & H)];
    rewrite Forall_forall in H.
  - specialize (H _ H1). cbn in H. lia.
  - pose proof (H _ H1) as E1. pose proof (H _ H2) as E2.
    cbn in E1, E2. congruence.
Qed.

End DataFlow.

(** ** These facts at work on the stand-in library *)

Lemma notebook_raises_cases_witness :
  snd (notebook (counting_library (Some KeyError)) notebook_config []) =
    Raise KeyError /\
  ((exists pre c,
      fst (notebook (counting_library (Some KeyError)) notebook_config []) =
      pre ++ [Called c (Some KeyError)]) \/
   (KeyError = ZeroDivisionError /\
    (cfg_freeze_list notebook_config <> [] \/
     cfg_remove_list notebook_config <> []) /\
    exists d mol,
      PySCFDriver (counting_library (Some KeyError))
        "Li .0 .0 .0; H .0 .0 1.6" ANGSTROM 0 0 "sto3g" = Ok d /\
      driver_run (counting_library (Some KeyError)) d = Ok mol /\
      num_orbitals (counting_library (Some KeyError)) mol = 0 /\
      sites (fst (notebook (counting_library (Some KeyError))
                    notebook_config [])) = [0; 1]%nat)).
Proof.
  split; [reflexivity|].
  exact (notebook_raises_cases (counting_library (Some KeyError))
           notebook_config KeyError eq_refl).
Defined.

Lemma complete_run_prints_witness :
  snd (notebook (counting_library None) notebook_config []) =
    Ok lih_outcome /\
  List.length
    (formats (fst (notebook (counting_library None) notebook_config [])))
  = 10%nat.
Proof.
  assert (H : snd (notebook (counting_library None) notebook_config [])
              = Ok lih_outcome) by reflexivity.
  split; [exact H|].
  rewrite (complete_run_prints (counting_library None) notebook_config
             lih_outcome H).
  reflexivity.
Defined.

Lemma reduction_dataflow_witness :
  exists op0 op1 q0 q1,
    FermionicOperator (counting_library None) (h1 lih_setup) (h2 lih_setup)
      = Ok op0 /\
    fermion_mode_freezing (counting_library None) op0 [0; 6] =
      Ok (op1, energy_shift (reduced lih_hamiltonian)) /\
    fermion_mode_elimination (counting_library None) op1 [2; 3; 7; 8] =
      Ok (ferOp (reduced lih_hamiltonian)) /\
    mapping (counting_library None) (ferOp (reduced lih_hamiltonian))
      "parity" mapping_threshold = Ok q0 /\
    two_qubit_reduction (counting_library None) q0 2 = Ok q1 /\
    chop (counting_library None) q1 chop_threshold =
      Ok (qubitOp lih_hamiltonian).
Proof.
  exact (reduction_dataflow (counting_library None) tt lih_setup []
           lih_hamiltonian eq_refl).
Defined.

Lemma ansatz_gets_reduced_counts_witness :
  Forall (ansatz_inputs (2 * 6 - 2 * (len [0] + len [-3; -2]))
            (2 + 2 - 2 * len [0]) "parity")
         (fst (notebook (counting_library None) notebook_config [])).
Proof.
  exact (ansatz_gets_reduced_counts (counting_library None) notebook_config
           tt tt eq_refl eq_refl).
Defined.

Lemma solvers_share_operator_witness :
  In (Called (call_NumPyMinimumEigensolver (L:=counting_library None) 4) None)
     (fst (notebook (counting_library None) notebook_config [])) /\
  In (Called (call_VQE (L:=counting_library None) 4 tt 200) None)
     (fst (notebook (counting_library None) notebook_config [])) /\
  (4 : QubitOp (counting_library None)) = 4.
Proof.
  assert (H1 : In (Called (call_NumPyMinimumEigensolver
                             (L:=counting_library None) 4) None)
                 (fst (notebook (counting_library None) notebook_config []))).
  { cbv. repeat (try (left; reflexivity); right). }
  assert (H2 : In (Called (call_VQE (L:=counting_library None) 4 tt 200) None)
                 (fst (notebook (counting_library None) notebook_config []))).
  { cbv. repeat (try (left; reflexivity); right). }
  split; [exact H1|]. split; [exact H2|].
  exact (solvers_share_operator (counting_library None) notebook_config
           4 4 tt 200 None None H1 H2).
Defined.
